(** * Energy storage calculator: PV generation model, battery dispatch and sizing search

    A shallow embedding of [EnergySystemCalculator] (app.py) and the
    properties of its three operations.

    Numbers: Python and numpy floats are read as real numbers ([R]); rounding
    is outside the model.  What numpy does on a division by zero (nan, inf)
    is kept, as a value of [npfloat], and so is the OverflowError of a float
    power too large for a float.  Timestamps are integers ([Z]).
    A pandas Series is the list of its (index, value) pairs, in order.
    Exceptions are values of [result]. *)

From Stdlib Require Import Reals Lra Lia ZArith List Bool FinFun.
Import ListNotations.
Open Scope R_scope.

(** ** Python and pandas values *)

Inductive exn : Type :=
| KeyError
| ValueError
| OverflowError
| ZeroDivisionError.

Inductive result (A : Type) : Type :=
| Ok (a : A)
| Raise (e : exn).
Arguments Ok {A} a.
Arguments Raise {A} e.

Definition timestamp : Type := Z.

(** A [pd.Series]: index and values, position by position. *)
Definition Series : Type := list (timestamp * R).

Definition index (s : Series) : list timestamp := map fst s.
Definition values (s : Series) : list R := map snd s.

(** [pd.Series(data, index=index)] for an array [data]: pandas raises
    ValueError when the two lengths differ. *)
Definition pd_Series (data : list R) (idx : list timestamp) : result Series :=
  if Nat.eqb (length data) (length idx) then Ok (combine idx data)
  else Raise ValueError.

(** [series.loc[t]] on a series: KeyError when [t] is not in the index; with
    a repeated label pandas hands back a sub-series, on which the [max] of the
    loop body raises ValueError (truth value of a Series). *)
Definition loc (s : Series) (t : timestamp) : result R :=
  match filter (fun p => Z.eqb (fst p) t) s with
  | [] => Raise KeyError
  | [p] => Ok (snd p)
  | _ :: _ :: _ => Raise ValueError
  end.

(** [series.sum()]. *)
Definition sum (l : list R) : R := fold_right Rplus 0 l.

(** [dict(pairs)]: insertion order, a repeated key keeps its first position
    and takes the last value. *)
Fixpoint dict_set (d : Series) (k : timestamp) (v : R) : Series :=
  match d with
  | [] => [(k, v)]
  | (k', v') :: d' =>
      if Z.eqb k' k then (k', v) :: d' else (k', v') :: dict_set d' k v
  end.

Definition dict (pairs : list (timestamp * R)) : Series :=
  fold_left (fun d kv => dict_set d (fst kv) (snd kv)) pairs [].

(** ** numpy *)

(** The result of a numpy float division: a number, or nan / inf when the
    divisor is zero (numpy warns and goes on). *)
Inductive npfloat : Type :=
| Finite (x : R)
| NaN
| PosInf
| NegInf.

Definition np_divide (a b : R) : npfloat :=
  if Req_EM_T b 0 then
    if Req_EM_T a 0 then NaN
    else if Rlt_dec 0 a then PosInf else NegInf
  else Finite (a / b).

(** [x >= m]; every comparison with nan is False. *)
Definition np_ge (x : npfloat) (m : R) : bool :=
  match x with
  | Finite r => if Rle_dec m r then true else false
  | NaN => false
  | PosInf => true
  | NegInf => false
  end.

(** [np.linspace(start, stop, num)]. *)
Definition np_linspace (start stop : R) (num : nat) : list R :=
  map (fun i => start + INR i * ((stop - start) / INR (num - 1))) (seq 0 num).

(** [np.clip(x, lo, hi)], element by element. *)
Definition np_clip (l : list R) (lo hi : R) : list R :=
  map (fun x => Rmin (Rmax x lo) hi) l.

Definition np_sin (l : list R) : list R := map sin l.

(** [np.tile(l, reps)]. *)
Definition np_tile (l : list R) (reps : nat) : list R :=
  concat (repeat l reps).

(** The process-wide state of [np.random]. *)
Record world : Type := mkWorld { np_random_state : Z }.

Definition np_random_seed (seed : Z) (w : world) : world :=
  {| np_random_state := seed |}.

(** ** EnergySystemCalculator *)

(** [self.consumption_profile]: the frame indexed by timestamp, with its one
    column consumption_kWh. *)
Record EnergySystemCalculator : Type := mkCalculator {
  consumption_profile : Series
}.

(** [__init__]: rows (timestamp, consumption_kWh), indexed by timestamp. *)
Definition init (rows : list (timestamp * R)) : EnergySystemCalculator :=
  {| consumption_profile := rows |}.

Definition annual_generation_per_kw : R := 1000.
Definition system_losses : R := 15 / 100.
Definition degradation_rate : R := 1 - Rpower (85 / 100) (1 / 25).

Definition degradation_multiplier (years : Z) : R :=
  powerRZ (1 - degradation_rate) (years - 1).

(** The least magnitude that no longer fits a float: what lies at or above
    it rounds to infinity. *)
Definition float_overflow_threshold : R := 2 ^ 1024 - 2 ^ 970.

(** [x ** n] for a float [x] and an int [n], as Python evaluates it:
    ZeroDivisionError for zero to a negative power, OverflowError when the
    power is too large for a float; a power too small for a float is no
    error (Python returns 0.0 without a word, the model the exact power).
    The exponent is taken as it is: an int of more than 308 digits, which
    Python cannot turn into a float, is outside the model. *)
Definition py_float_pow (x : R) (n : Z) : result R :=
  if Req_EM_T x 0 then
    if (n <? 0)%Z then Raise ZeroDivisionError else Ok (powerRZ x n)
  else if Rle_dec float_overflow_threshold (Rabs (powerRZ x n)) then
    Raise OverflowError
  else Ok (powerRZ x n).

Definition seasonal_factor (self : EnergySystemCalculator) : list R :=
  np_tile (np_clip (np_sin (np_linspace 0 PI 24)) 0 1)
          (length (consumption_profile self) / 24)%nat.

Definition hourly_generation (pv_size_kw : R) : R :=
  pv_size_kw * annual_generation_per_kw * (1 - system_losses) / 8760.

Definition simulate_pv_generation (self : EnergySystemCalculator)
    (pv_size_kw : R) (years : Z) (w : world) : result Series * world :=
  let w1 := np_random_seed 42 w in
  match py_float_pow (1 - degradation_rate) (years - 1) with
  | Raise e => (Raise e, w1)
  | Ok multiplier =>
      (pd_Series
         (map (fun s => hourly_generation pv_size_kw * s * multiplier)
              (seasonal_factor self))
         (index (consumption_profile self)),
       w1)
  end.

(** *** Dispatch *)

Definition battery_degradation : R := 2 / 10.

(** The loop variables of [calculate_autoconsumption]. *)
Record dispatch_state : Type := mkState {
  storage_level : R;
  autokonsumed : R;
  storage_levels : list (timestamp * R)
}.

Definition dispatch_init : dispatch_state :=
  {| storage_level := 0; autokonsumed := 0; storage_levels := [] |}.

(** One pass of the loop body on the battery: the new storage level and the
    final [direct_use] of the hour. *)
Definition battery_step (adjusted_capacity storage_power_kw level pv_gen demand : R)
    : R * R :=
  let excess := Rmax (pv_gen - demand) 0 in
  let direct_use := Rmin pv_gen demand in
  if Rlt_dec 0 excess then
    let charge :=
      Rmin (adjusted_capacity - level) (Rmin storage_power_kw excess) in
    (level + charge, direct_use)
  else
    let needed := demand - direct_use in
    let discharge := Rmin level (Rmin storage_power_kw needed) in
    (level - discharge, direct_use + discharge).

Definition dispatch_step (adjusted_capacity storage_power_kw : R)
    (st : dispatch_state) (time : timestamp) (pv_gen demand : R) : dispatch_state :=
  let (level', direct_use) :=
    battery_step adjusted_capacity storage_power_kw (storage_level st) pv_gen demand in
  {| storage_level := level';
     autokonsumed := autokonsumed st + direct_use;
     storage_levels := storage_levels st ++ [(time, level')] |}.

(** [for time, pv_gen in pv_generation.items(): ...] *)
Fixpoint dispatch_loop (adjusted_capacity storage_power_kw : R)
    (consumption : Series) (items : Series) (st : dispatch_state)
    : result dispatch_state :=
  match items with
  | [] => Ok st
  | (time, pv_gen) :: rest =>
      match loc consumption time with
      | Raise e => Raise e
      | Ok demand =>
          dispatch_loop adjusted_capacity storage_power_kw consumption rest
            (dispatch_step adjusted_capacity storage_power_kw st time pv_gen demand)
      end
  end.

Definition adjusted_capacity_of (storage_capacity_kwh : R) : R :=
  storage_capacity_kwh * (1 - battery_degradation).

Definition calculate_autoconsumption (self : EnergySystemCalculator)
    (pv_generation : Series) (storage_power_kw storage_capacity_kwh : R)
    (battery_cycles : Z) : result (npfloat * Series) :=
  let consumption := consumption_profile self in
  let adjusted_capacity := adjusted_capacity_of storage_capacity_kwh in
  match dispatch_loop adjusted_capacity storage_power_kw consumption
          pv_generation dispatch_init with
  | Raise e => Raise e
  | Ok st =>
      let storage_profile := dict (storage_levels st) in
      Ok (np_divide (autokonsumed st) (sum (values consumption)), storage_profile)
  end.

(** *** Sizing search *)

(** The dictionary [optimize_system] returns. *)
Record sizing : Type := mkSizing {
  pv_size_kw : R;
  storage_power_kw : R;
  storage_capacity_kwh : R;
  autoconsumption : npfloat;
  pv_generation : Series;
  storage_profile : Series
}.

(** The [while True] loop, with [fuel] counting the passes allowed; [None]
    is a loop that has not left after [fuel] passes. *)
Fixpoint optimize_loop (fuel : nat) (self : EnergySystemCalculator)
    (min_autoconsumption pv sp sc : R) (w : world)
    : option (result sizing * world) :=
  match fuel with
  | O => None
  | S fuel' =>
      let (rg, w1) := simulate_pv_generation self pv 1 w in
      match rg with
      | Raise e => Some (Raise e, w1)
      | Ok gen =>
          match calculate_autoconsumption self gen sp sc 4000 with
          | Raise e => Some (Raise e, w1)
          | Ok (autocons, profile) =>
              if np_ge autocons min_autoconsumption then
                Some (Ok {| pv_size_kw := pv;
                            storage_power_kw := sp;
                            storage_capacity_kwh := sc;
                            autoconsumption := autocons;
                            pv_generation := gen;
                            storage_profile := profile |}, w1)
              else
                optimize_loop fuel' self min_autoconsumption
                  (pv + 2) (sp + 1) (sc + 5) w1
          end
      end
  end.

Definition optimize_system (fuel : nat) (self : EnergySystemCalculator)
    (min_autoconsumption : R) (w : world) : option (result sizing * world) :=
  optimize_loop fuel self min_autoconsumption 10 5 20 w.

(** ** Definitions used in the statements *)

(** The loop of [calculate_autoconsumption] once every lookup of the demand
    has succeeded: a left fold over (time, pv_gen) paired with the demand. *)
Definition run_steps (adjusted_capacity storage_power_kw : R)
    (steps : list ((timestamp * R) * R)) (st : dispatch_state) : dispatch_state :=
  fold_left
    (fun st s =>
       dispatch_step adjusted_capacity storage_power_kw st
         (fst (fst s)) (snd (fst s)) (snd s))
    steps st.

(** The series are indexed alike and no timestamp is repeated. *)
Definition aligned (consumption items : Series) : Prop :=
  index items = index consumption /\ NoDup (index consumption).

Definition nonneg (l : list R) : Prop := Forall (fun x => 0 <= x) l.

(** The generation and the demand of one hour of the fold. *)
Definition step_gen (s : (timestamp * R) * R) : R := snd (fst s).
Definition step_demand (s : (timestamp * R) * R) : R := snd s.

(** The storage level lies between empty and the adjusted capacity. *)
Definition level_ok (adj : R) (st : dispatch_state) : Prop :=
  0 <= storage_level st <= adj.

Definition levels_ok (adj : R) (l : list (timestamp * R)) : Prop :=
  Forall (fun e => 0 <= snd e <= adj) l.

(** The diurnal curve, hour by hour: the sine at 24 equally spaced points
    from 0 to pi, clipped to [0, 1]. *)
Definition diurnal (h : nat) : R :=
  Rmin (Rmax (sin (INR h * PI / 23)) 0) 1.

(** The candidate of pass [k] of the search: (pv, power, capacity). *)
Definition candidate_pv (k : nat) : R := 10 + 2 * INR k.
Definition candidate_power (k : nat) : R := 5 + INR k.
Definition candidate_capacity (k : nat) : R := 20 + 5 * INR k.

(** A profile of [n] hours, hour [i] stamped [i], each consuming [c]. *)
Definition flat_profile (n : nat) (c : R) : Series :=
  map (fun i => (Z.of_nat i, c)) (seq 0 n).

(** Pass [k] of the search: generation, then dispatch, for candidate [k]. *)
Definition attempt (self : EnergySystemCalculator) (k : nat)
    : result (Series * (npfloat * Series)) :=
  match fst (simulate_pv_generation self (candidate_pv k) 1 (mkWorld 42)) with
  | Raise e => Raise e
  | Ok gen =>
      match calculate_autoconsumption self gen
              (candidate_power k) (candidate_capacity k) 4000 with
      | Raise e => Raise e
      | Ok out => Ok (gen, out)
      end
  end.

(** Pass [j] of the search runs without error and its ratio misses the target. *)
Definition below_target (self : EnergySystemCalculator) (target : R) (j : nat)
    : Prop :=
  exists g a s, attempt self j = Ok (g, (a, s)) /\ np_ge a target = false.

(** [direct_use = min(pv_gen, demand)] summed over the hours: the energy
    used in the hour it is generated, before the battery adds to it. *)
Definition direct_use_total (gen : Series) (demands : list R) : R :=
  sum (map (fun s => Rmin (step_gen s) (step_demand s)) (combine gen demands)).

(** A series with every value multiplied by [c]. *)
Definition scale (c : R) (s : Series) : Series :=
  map (fun e => (fst e, c * snd e)) s.

(** The loop variables with every energy multiplied by [c]. *)
Definition scale_state (c : R) (st : dispatch_state) : dispatch_state :=
  {| storage_level := c * storage_level st;
     autokonsumed := c * autokonsumed st;
     storage_levels := scale c (storage_levels st) |}.

(** [st.slider(..., 70, 100, 90) / 100]: the target ratio the page hands to
    [optimize_system]. *)
Definition desired_autoconsumption (slider : Z) : R := IZR slider / 100.

(** A profile fit for the search: at least one row, whole days, no
    timestamp twice, no negative consumption. *)
Definition well_formed (self : EnergySystemCalculator) : Prop :=
  (length (consumption_profile self) mod 24 = 0)%nat
  /\ NoDup (index (consumption_profile self))
  /\ nonneg (values (consumption_profile self))
  /\ consumption_profile self <> [].





(** Sample inputs. *)
Definition w0 : world := mkWorld 0.
Definition flat_day : EnergySystemCalculator := init (flat_profile 24 1).
Definition idle_day : EnergySystemCalculator := init (flat_profile 24 0).
Definition long_day : EnergySystemCalculator := init (flat_profile 25 1).
Definition sunny : Series := flat_profile 24 2.
Definition three_hours : EnergySystemCalculator :=
  init [(0%Z, 1); (1%Z, 1); (2%Z, 1)].
Definition midday_sun : Series := [(0%Z, 0); (1%Z, 3); (2%Z, 0)].
Definition one_then_idle : EnergySystemCalculator :=
  init [(0%Z, 1); (1%Z, 0); (2%Z, 0)].
Definition echo_sun : Series := [(0%Z, 1); (0%Z, 1); (0%Z, 1)].
Definition stray_sun : Series := [(0%Z, 0); (7%Z, 3); (2%Z, 0)].
Definition twice_stamped : EnergySystemCalculator :=
  init [(0%Z, 1); (1%Z, 1); (1%Z, 1)].
Definition twice_stamped_sun : Series := [(0%Z, 0); (1%Z, 3); (1%Z, 0)].

(** Case analysis on every [Rmin], [Rmax] and comparison in sight. *)
Ltac crunch_minmax :=
  unfold Rmin, Rmax in *;
  repeat match goal with
         | |- context [Rle_dec ?a ?b] => destruct (Rle_dec a b)
         | |- context [Rlt_dec ?a ?b] => destruct (Rlt_dec a b)
         | H : context [Rle_dec ?a ?b] |- _ => destruct (Rle_dec a b)
         | H : context [Rlt_dec ?a ?b] |- _ => destruct (Rlt_dec a b)
         end;
  simpl in *; try lra.

(** Equality of loop states and series, up to arithmetic. *)
Ltac state_eq :=
  crunch_minmax;
  repeat match goal with
         | |- @eq R _ _ => lra
         | |- _ => f_equal
         end.

(** * Properties *)

(** ** Lookups, sums and dictionaries *)

Lemma filter_absent (c : Series) (t : timestamp) :
  ~ In t (index c) -> filter (fun p => Z.eqb (fst p) t) c = [].
Proof.
  induction c as [|[k v] c IH]; simpl; intros H; [reflexivity|].
  destruct (Z.eqb_spec k t) as [->|Hne].
  - exfalso. apply H. now left.
  - apply IH. intros Hin. apply H. now right.
Qed.

Lemma loc_unique (c : Series) (t : timestamp) (d : R) :
  NoDup (index c) -> In (t, d) c -> loc c t = Ok d.
Proof.
  unfold loc. induction c as [|[k v] c IH]; simpl; intros Hnd Hin; [contradiction|].
  inversion Hnd as [|? ? Hk Hnd']; subst.
  destruct Hin as [Heq|Hin].
  - inversion Heq; subst. rewrite Z.eqb_refl.
    rewrite (filter_absent c t Hk). reflexivity.
  - destruct (Z.eqb_spec k t) as [->|Hne].
    + exfalso. apply Hk. change t with (fst (t, d)). now apply in_map.
    + now apply IH.
Qed.

Lemma dispatch_loop_steps (adj p : R) (c : Series) :
  forall (items cs : Series) (st : dispatch_state),
    index items = index cs ->
    (forall t d, In (t, d) cs -> loc c t = Ok d) ->
    dispatch_loop adj p c items st
    = Ok (run_steps adj p (combine items (values cs)) st).
Proof.
  induction items as [|[t g] items IH]; intros [|[t' d] cs] st Hidx Hloc;
    simpl in *; try discriminate; [reflexivity|].
  inversion Hidx; subst.
  rewrite (Hloc t' d) by now left.
  apply IH; [assumption|].
  intros t d' Hin. apply Hloc. now right.
Qed.

Lemma dispatch_loop_aligned (adj p : R) (c items : Series) (st : dispatch_state) :
  aligned c items ->
  dispatch_loop adj p c items st
  = Ok (run_steps adj p (combine items (values c)) st).
Proof.
  intros [Hidx Hnd]. apply dispatch_loop_steps; [assumption|].
  intros t d Hin. now apply loc_unique.
Qed.

(** ** One hour of the battery *)

Lemma battery_step_level (adj p level g d : R) :
  0 <= p -> 0 <= level <= adj ->
  0 <= fst (battery_step adj p level g d) <= adj.
Proof. intros Hp Hl. unfold battery_step. crunch_minmax. Qed.

Lemma battery_step_direct_le (adj p level g d : R) :
  snd (battery_step adj p level g d) <= d.
Proof. unfold battery_step. crunch_minmax. Qed.

Lemma battery_step_direct_nonneg (adj p level g d : R) :
  0 <= p -> 0 <= level -> 0 <= g -> 0 <= d ->
  0 <= snd (battery_step adj p level g d).
Proof. intros Hp Hl Hg Hd. unfold battery_step. crunch_minmax. Qed.

Lemma battery_step_energy (adj p level g d : R) :
  snd (battery_step adj p level g d) + fst (battery_step adj p level g d)
  <= level + g.
Proof. unfold battery_step. crunch_minmax. Qed.

Lemma dispatch_step_level (adj p : R) (st : dispatch_state) (t : timestamp) (g d : R) :
  storage_level (dispatch_step adj p st t g d)
  = fst (battery_step adj p (storage_level st) g d).
Proof. unfold dispatch_step. now destruct battery_step. Qed.

Lemma dispatch_step_autokonsumed (adj p : R) (st : dispatch_state) (t : timestamp) (g d : R) :
  autokonsumed (dispatch_step adj p st t g d)
  = autokonsumed st + snd (battery_step adj p (storage_level st) g d).
Proof. unfold dispatch_step. now destruct battery_step. Qed.

Lemma dispatch_step_levels (adj p : R) (st : dispatch_state) (t : timestamp) (g d : R) :
  storage_levels (dispatch_step adj p st t g d)
  = storage_levels st ++ [(t, storage_level (dispatch_step adj p st t g d))].
Proof. unfold dispatch_step. now destruct battery_step. Qed.

(** The two branches of the loop body. *)
Lemma battery_step_surplus (adj p level g d : R) :
  d < g ->
  battery_step adj p level g d
  = (level + Rmin (adj - level) (Rmin p (g - d)), d).
Proof. intros H. unfold battery_step. crunch_minmax; f_equal; lra. Qed.

Lemma battery_step_deficit (adj p level g d : R) :
  g <= d ->
  battery_step adj p level g d
  = (level - Rmin level (Rmin p (d - g)), g + Rmin level (Rmin p (d - g))).
Proof. intros H. unfold battery_step. crunch_minmax; f_equal; lra. Qed.

Example battery_step_charges : battery_step 16 5 0 3 1 = (2, 1).
Proof. rewrite battery_step_surplus by lra. crunch_minmax; f_equal; lra. Qed.

Example battery_step_power_limited : battery_step 16 5 0 10 1 = (5, 1).
Proof. rewrite battery_step_surplus by lra. crunch_minmax; f_equal; lra. Qed.

Example battery_step_capacity_limited : battery_step 16 5 14 10 1 = (16, 1).
Proof. rewrite battery_step_surplus by lra. crunch_minmax; f_equal; lra. Qed.

Example battery_step_discharges : battery_step 16 5 2 0 1 = (1, 1).
Proof. rewrite battery_step_deficit by lra. crunch_minmax; f_equal; lra. Qed.

Example battery_step_runs_dry : battery_step 16 5 (1 / 2) 0 1 = (0, 1 / 2).
Proof. rewrite battery_step_deficit by lra. crunch_minmax; f_equal; lra. Qed.

Example loc_missing : loc [(0%Z, 1); (1%Z, 2)] 5%Z = Raise KeyError.
Proof. reflexivity. Qed.

Example loc_found : loc [(0%Z, 1); (1%Z, 2)] 1%Z = Ok 2.
Proof. reflexivity. Qed.

Example loc_repeated : loc [(0%Z, 1); (0%Z, 2)] 0%Z = Raise ValueError.
Proof. reflexivity. Qed.

Example dict_repeated :
  dict [(0%Z, 1); (1%Z, 2); (0%Z, 3)] = [(0%Z, 3); (1%Z, 2)].
Proof. reflexivity. Qed.

Example pd_Series_short : pd_Series [1; 2] [0%Z; 1%Z; 2%Z] = Raise ValueError.
Proof. reflexivity. Qed.

(** ** The fold over the hours *)

Lemma run_steps_cons (adj p : R) (s : (timestamp * R) * R) steps st :
  run_steps adj p (s :: steps) st
  = run_steps adj p steps
      (dispatch_step adj p st (fst (fst s)) (snd (fst s)) (snd s)).
Proof. reflexivity. Qed.

Lemma run_steps_level (adj p : R) :
  0 <= p ->
  forall steps st, level_ok adj st -> level_ok adj (run_steps adj p steps st).
Proof.
  intros Hp. induction steps as [|s steps IH]; intros st Hst; [exact Hst|].
  rewrite run_steps_cons. apply IH. unfold level_ok.
  rewrite dispatch_step_level. now apply battery_step_level.
Qed.

Lemma run_steps_levels (adj p : R) :
  0 <= p ->
  forall steps st,
    level_ok adj st -> levels_ok adj (storage_levels st) ->
    levels_ok adj (storage_levels (run_steps adj p steps st)).
Proof.
  intros Hp. induction steps as [|s steps IH]; intros st Hst Hls; [exact Hls|].
  rewrite run_steps_cons.
  assert (Hst' : level_ok adj (dispatch_step adj p st (fst (fst s)) (snd (fst s)) (snd s))).
  { unfold level_ok. rewrite dispatch_step_level. now apply battery_step_level. }
  apply IH; [exact Hst'|].
  rewrite dispatch_step_levels. apply Forall_app. split; [exact Hls|].
  constructor; [exact Hst'|constructor].
Qed.

Lemma run_steps_energy (adj p : R) :
  forall steps st,
    autokonsumed (run_steps adj p steps st) + storage_level (run_steps adj p steps st)
    <= autokonsumed st + storage_level st + sum (map step_gen steps).
Proof.
  induction steps as [|s steps IH]; intros st; simpl; [lra|].
  fold (run_steps adj p steps
          (dispatch_step adj p st (fst (fst s)) (snd (fst s)) (snd s))).
  eapply Rle_trans; [apply IH|].
  rewrite dispatch_step_level, dispatch_step_autokonsumed.
  pose proof (battery_step_energy adj p (storage_level st) (snd (fst s)) (snd s)).
  unfold step_gen. lra.
Qed.

Lemma run_steps_autokonsumed_le (adj p : R) :
  forall steps st,
    autokonsumed (run_steps adj p steps st)
    <= autokonsumed st + sum (map step_demand steps).
Proof.
  induction steps as [|s steps IH]; intros st; simpl; [lra|].
  fold (run_steps adj p steps
          (dispatch_step adj p st (fst (fst s)) (snd (fst s)) (snd s))).
  eapply Rle_trans; [apply IH|].
  rewrite dispatch_step_autokonsumed.
  pose proof (battery_step_direct_le adj p (storage_level st) (snd (fst s)) (snd s)).
  unfold step_demand. lra.
Qed.

Lemma run_steps_autokonsumed_nonneg (adj p : R) :
  0 <= p ->
  forall steps st,
    level_ok adj st ->
    nonneg (map step_gen steps) -> nonneg (map step_demand steps) ->
    autokonsumed st <= autokonsumed (run_steps adj p steps st).
Proof.
  intros Hp. induction steps as [|s steps IH]; intros st Hst Hg Hd; simpl; [lra|].
  fold (run_steps adj p steps
          (dispatch_step adj p st (fst (fst s)) (snd (fst s)) (snd s))).
  inversion Hg as [|? ? Hg0 Hg']; inversion Hd as [|? ? Hd0 Hd']; subst.
  eapply Rle_trans; [|apply IH; try assumption].
  - rewrite dispatch_step_autokonsumed.
    pose proof (battery_step_direct_nonneg adj p (storage_level st)
                  (snd (fst s)) (snd s) Hp (proj1 Hst) Hg0 Hd0). lra.
  - unfold level_ok. rewrite dispatch_step_level. now apply battery_step_level.
Qed.

Lemma combine_gens (items : Series) (ds : list R) :
  length items = length ds ->
  map step_gen (combine items ds) = values items.
Proof.
  revert ds. induction items as [|[t g] items IH]; intros [|d ds] Hlen;
    simpl in *; try discriminate; [reflexivity|].
  f_equal. apply IH. now inversion Hlen.
Qed.

Lemma combine_demands (items : Series) (ds : list R) :
  length items = length ds ->
  map step_demand (combine items ds) = ds.
Proof.
  revert ds. induction items as [|[t g] items IH]; intros [|d ds] Hlen;
    simpl in *; try discriminate; [reflexivity|].
  f_equal. apply IH. now inversion Hlen.
Qed.

Lemma aligned_length (c items : Series) :
  aligned c items -> length items = length (values c).
Proof.
  intros [Hidx _]. unfold values. rewrite length_map.
  apply (f_equal (@length _)) in Hidx. unfold index in Hidx.
  now rewrite !length_map in Hidx.
Qed.

Lemma In_firstn {A : Type} (x : A) (n : nat) (l : list A) :
  In x (firstn n l) -> In x l.
Proof.
  intros H. rewrite <- (firstn_skipn n l). apply in_or_app. now left.
Qed.

Lemma dispatch_loop_prefix (adj p : R) (c items : Series) (n : nat) st :
  aligned c items ->
  dispatch_loop adj p c (firstn n items) st
  = Ok (run_steps adj p (combine (firstn n items) (values (firstn n c))) st).
Proof.
  intros [Hidx Hnd]. apply dispatch_loop_steps.
  - unfold index in *. rewrite <- !firstn_map. now rewrite Hidx.
  - intros t d Hin. apply loc_unique; [assumption|].
    now apply In_firstn with (n := n).
Qed.

Lemma prefix_lengths (c items : Series) (n : nat) :
  aligned c items ->
  length (firstn n items) = length (values (firstn n c)).
Proof.
  intros Hal. pose proof (aligned_length c items Hal) as Hlen.
  unfold values in *. rewrite length_map in *. rewrite !length_firstn. lia.
Qed.

Lemma nonneg_firstn (l : list R) (n : nat) : nonneg l -> nonneg (firstn n l).
Proof.
  unfold nonneg. rewrite !Forall_forall. intros H x Hin.
  apply H. now apply In_firstn with (n := n).
Qed.

Lemma sum_nonneg (l : list R) : nonneg l -> 0 <= sum l.
Proof. induction 1; simpl; lra. Qed.

Lemma dict_set_levels (adj : R) (d : Series) (k : timestamp) (v : R) :
  levels_ok adj d -> 0 <= v <= adj -> levels_ok adj (dict_set d k v).
Proof.
  unfold levels_ok. induction d as [|[k' v'] d IH]; simpl; intros Hd Hv.
  - constructor; [exact Hv|constructor].
  - inversion Hd; subst. destruct (Z.eqb k' k); constructor; auto.
Qed.

Lemma dict_levels (adj : R) (l : list (timestamp * R)) :
  levels_ok adj l -> levels_ok adj (dict l).
Proof.
  unfold dict. assert (H : levels_ok adj []) by constructor. revert H.
  generalize (@nil (timestamp * R)) as acc.
  induction l as [|[k v] l IH]; intros acc Hacc Hl; simpl; [exact Hacc|].
  inversion Hl; subst. apply IH; [|assumption].
  now apply dict_set_levels.
Qed.

(** ** The generation model *)

Lemma np_tile_length (l : list R) (n : nat) :
  length (np_tile l n) = (n * length l)%nat.
Proof.
  unfold np_tile. induction n as [|n IH]; simpl; [reflexivity|].
  rewrite length_app, IH. reflexivity.
Qed.

Lemma np_tile_nth (l : list R) (d : R) :
  l <> [] ->
  forall n h, (h < n * length l)%nat ->
    nth h (np_tile l n) d = nth (h mod length l) l d.
Proof.
  intros Hl. assert (Hlen : length l <> 0%nat) by (destruct l; simpl; congruence).
  unfold np_tile. induction n as [|n IH]; intros h Hh; simpl in *; [lia|].
  destruct (Nat.lt_ge_cases h (length l)) as [Hlt|Hge].
  - rewrite app_nth1 by assumption. now rewrite Nat.mod_small.
  - rewrite app_nth2 by lia. rewrite IH by lia.
    f_equal. replace h with ((h - length l) + 1 * length l)%nat at 2 by lia.
    now rewrite Nat.Div0.mod_add.
Qed.

Lemma seasonal_day_length :
  length (np_clip (np_sin (np_linspace 0 PI 24)) 0 1) = 24%nat.
Proof.
  unfold np_clip, np_sin, np_linspace. now rewrite !length_map, length_seq.
Qed.

Lemma seasonal_day_nth (h : nat) :
  (h < 24)%nat ->
  nth h (np_clip (np_sin (np_linspace 0 PI 24)) 0 1) 0 = diurnal h.
Proof.
  intros Hh. unfold np_clip, np_sin, np_linspace. rewrite !map_map.
  rewrite (nth_indep _ 0 ((fun i => Rmin (Rmax (sin (0 + INR i * ((PI - 0) / INR (24 - 1)))) 0) 1) 0%nat))
    by now rewrite length_map, length_seq.
  rewrite (map_nth (fun i => Rmin (Rmax (sin (0 + INR i * ((PI - 0) / INR (24 - 1)))) 0) 1)).
  rewrite seq_nth by assumption. unfold diurnal. simpl (0 + h)%nat.
  do 3 f_equal. replace (INR (24 - 1)) with 23 by (simpl; lra). lra.
Qed.


Lemma seasonal_factor_length (self : EnergySystemCalculator) :
  length (seasonal_factor self)
  = (length (consumption_profile self) / 24 * 24)%nat.
Proof. unfold seasonal_factor. now rewrite np_tile_length, seasonal_day_length. Qed.

Lemma seasonal_factor_nth (self : EnergySystemCalculator) (h : nat) :
  (h < length (consumption_profile self) / 24 * 24)%nat ->
  nth h (seasonal_factor self) 0 = diurnal (h mod 24).
Proof.
  intros Hh. unfold seasonal_factor.
  rewrite np_tile_nth.
  - rewrite seasonal_day_length. apply seasonal_day_nth.
    now apply Nat.mod_upper_bound.
  - intros Hnil. pose proof seasonal_day_length as Hl. rewrite Hnil in Hl. discriminate.
  - now rewrite seasonal_day_length.
Qed.

Lemma index_combine (idx : list timestamp) (data : list R) :
  length data = length idx -> index (combine idx data) = idx.
Proof.
  unfold index. revert data. induction idx as [|t idx IH]; intros [|x data] H;
    simpl in *; try discriminate; [reflexivity|].
  f_equal. apply IH. now inversion H.
Qed.

Lemma values_combine (idx : list timestamp) (data : list R) :
  length data = length idx -> values (combine idx data) = data.
Proof.
  unfold values. revert data. induction idx as [|t idx IH]; intros [|x data] H;
    simpl in *; try discriminate; [reflexivity|].
  f_equal. apply IH. now inversion H.
Qed.

Lemma pd_Series_ok (data : list R) (idx : list timestamp) :
  length data = length idx -> pd_Series data idx = Ok (combine idx data).
Proof. intros H. unfold pd_Series. now rewrite H, Nat.eqb_refl. Qed.

Lemma pd_Series_mismatch (data : list R) (idx : list timestamp) :
  length data <> length idx -> pd_Series data idx = Raise ValueError.
Proof.
  intros H. unfold pd_Series.
  destruct (Nat.eqb_spec (length data) (length idx)); [contradiction|reflexivity].
Qed.

Lemma whole_days (self : EnergySystemCalculator) :
  (length (consumption_profile self) mod 24 = 0)%nat ->
  (length (consumption_profile self) / 24 * 24)%nat
  = length (consumption_profile self).
Proof.
  intros H. pose proof (Nat.div_mod_eq (length (consumption_profile self)) 24). lia.
Qed.

(** ** The degradation curve *)

Lemma retention_bounds : 0 < 1 - degradation_rate < 1.
Proof.
  unfold degradation_rate.
  replace (1 - (1 - Rpower (85 / 100) (1 / 25))) with (Rpower (85 / 100) (1 / 25)) by lra.
  unfold Rpower. split; [apply exp_pos|].
  assert (Hln : ln (85 / 100) < 0).
  { rewrite <- ln_1. apply ln_increasing; lra. }
  apply Rlt_le_trans with (exp 0); [apply exp_increasing; lra|].
  rewrite exp_0. lra.
Qed.

Lemma degradation_multiplier_pos (years : Z) : 0 < degradation_multiplier years.
Proof. apply powerRZ_lt. apply retention_bounds. Qed.



Lemma degradation_multiplier_closed (years : Z) :
  degradation_multiplier years = Rpower (85 / 100) (IZR (years - 1) / 25).
Proof.
  unfold degradation_multiplier.
  rewrite powerRZ_Rpower by apply retention_bounds.
  unfold degradation_rate.
  replace (1 - (1 - Rpower (85 / 100) (1 / 25))) with (Rpower (85 / 100) (1 / 25))
    by lra.
  rewrite Rpower_mult. f_equal. lra.
Qed.

(** ** The float range of the degradation power *)

Lemma float_overflow_threshold_large : 2 ^ 1001 < float_overflow_threshold.
Proof.
  unfold float_overflow_threshold.
  assert (H1 : 2 ^ 1024 = 2 ^ 1001 * 2 ^ 23) by (rewrite <- pow_add; reflexivity).
  assert (H2 : 2 ^ 970 <= 2 ^ 1001) by (apply Rle_pow; [lra|lia]).
  assert (H3 : 1 <= 2 ^ 1001) by (apply pow_R1_Rle; lra).
  assert (H4 : 2 ^ 2 <= 2 ^ 23) by (apply Rle_pow; [lra|lia]).
  rewrite H1. simpl (2 ^ 2) in H4.
  generalize dependent (2 ^ 1001). generalize dependent (2 ^ 23).
  generalize (2 ^ 970). intros c b Hb a Hc Ha. nra.
Qed.

Lemma inverse_retention_bound : (/ (85 / 100)) ^ 4001 < 2 ^ 1001.
Proof.
  replace (/ (85 / 100)) with (20 / 17) by (field; lra).
  replace 4001%nat with (4 * 1000 + 1)%nat by reflexivity.
  replace 1001%nat with (1000 + 1)%nat by reflexivity.
  rewrite !pow_add, pow_mult, !pow_1.
  assert (H4 : 0 <= (20 / 17) ^ 4 <= 2) by (simpl; lra).
  pose proof (pow_incr _ _ 1000 H4) as Hp.
  assert (Hpos : 0 < 2 ^ 1000) by (apply pow_lt; lra).
  generalize dependent (2 ^ 1000). generalize (((20 / 17) ^ 4) ^ 1000).
  intros a b Hab Hb.
  assert (Ha : 0 <= a \/ a < 0) by lra.
  destruct Ha as [Ha|Ha]; nra.
Qed.

Lemma degradation_power_fits (years : Z) :
  (-100000 <= years)%Z ->
  Rabs (degradation_multiplier years) < float_overflow_threshold.
Proof.
  intros Hy.
  rewrite Rabs_pos_eq by (left; apply degradation_multiplier_pos).
  apply Rle_lt_trans with ((/ (85 / 100)) ^ 4001);
    [|apply Rlt_trans with (2 ^ 1001);
      [apply inverse_retention_bound|apply float_overflow_threshold_large]].
  rewrite degradation_multiplier_closed.
  rewrite pow_inv, <- Rpower_pow by lra.
  rewrite <- Rpower_Ropp. unfold Rpower.
  assert (Hln : ln (85 / 100) < 0).
  { rewrite <- ln_1. apply ln_increasing; lra. }
  assert (He : - INR 4001 <= IZR (years - 1) / 25).
  { rewrite INR_IZR_INZ. change (Z.of_nat 4001) with 4001%Z.
    assert (H : IZR (-100001) <= IZR (years - 1)) by (apply IZR_le; lia).
    lra. }
  destruct (Rle_lt_or_eq_dec _ _ He) as [Hlt|Heq].
  - left. apply exp_increasing. nra.
  - right. now rewrite Heq.
Qed.

Lemma py_float_pow_degradation (years : Z) :
  (-100000 <= years)%Z ->
  py_float_pow (1 - degradation_rate) (years - 1)
  = Ok (degradation_multiplier years).
Proof.
  intros Hy. unfold py_float_pow.
  destruct (Req_EM_T (1 - degradation_rate) 0) as [H0|_].
  - pose proof retention_bounds. lra.
  - pose proof (degradation_power_fits years Hy) as Hfit.
    unfold degradation_multiplier in Hfit.
    destruct (Rle_dec float_overflow_threshold
                (Rabs (powerRZ (1 - degradation_rate) (years - 1)))); [lra|reflexivity].
Qed.



Lemma simulate_pv_generation_in_range (self : EnergySystemCalculator)
    (pv : R) (years : Z) (w : world) :
  (-100000 <= years)%Z ->
  simulate_pv_generation self pv years w
  = (pd_Series
       (map (fun s => hourly_generation pv * s * degradation_multiplier years)
            (seasonal_factor self))
       (index (consumption_profile self)),
     np_random_seed 42 w).
Proof.
  intros Hy. unfold simulate_pv_generation. cbv zeta.
  now rewrite py_float_pow_degradation.
Qed.


Lemma simulate_pv_generation_returns (self : EnergySystemCalculator)
    (pv : R) (years : Z) (w : world) :
  (-100000 <= years)%Z ->
  (length (consumption_profile self) mod 24 = 0)%nat ->
  fst (simulate_pv_generation self pv years w)
  = Ok (combine (index (consumption_profile self))
          (map (fun s => hourly_generation pv * s * degradation_multiplier years)
               (seasonal_factor self))).
Proof.
  intros Hy H. rewrite simulate_pv_generation_in_range by assumption.
  simpl. apply pd_Series_ok.
  rewrite length_map, seasonal_factor_length, (whole_days self H).
  unfold index. now rewrite length_map.
Qed.

Lemma simulate_pv_generation_raises (self : EnergySystemCalculator)
    (pv : R) (years : Z) (w : world) :
  (-100000 <= years)%Z ->
  (length (consumption_profile self) mod 24 <> 0)%nat ->
  fst (simulate_pv_generation self pv years w) = Raise ValueError.
Proof.
  intros Hy H. rewrite simulate_pv_generation_in_range by assumption.
  simpl. apply pd_Series_mismatch.
  rewrite length_map, seasonal_factor_length. unfold index. rewrite length_map.
  pose proof (Nat.div_mod_eq (length (consumption_profile self)) 24). lia.
Qed.

Lemma generation_index (self : EnergySystemCalculator) (pv : R) (years : Z) :
  (length (consumption_profile self) mod 24 = 0)%nat ->
  index (combine (index (consumption_profile self))
           (map (fun s => hourly_generation pv * s * degradation_multiplier years)
                (seasonal_factor self)))
  = index (consumption_profile self).
Proof.
  intros H. apply index_combine.
  rewrite length_map, seasonal_factor_length, (whole_days self H).
  unfold index. now rewrite length_map.
Qed.

Lemma generation_values (self : EnergySystemCalculator) (pv : R) (years : Z) :
  (length (consumption_profile self) mod 24 = 0)%nat ->
  values (combine (index (consumption_profile self))
            (map (fun s => hourly_generation pv * s * degradation_multiplier years)
                 (seasonal_factor self)))
  = map (fun s => hourly_generation pv * s * degradation_multiplier years)
        (seasonal_factor self).
Proof.
  intros H. apply values_combine.
  rewrite length_map, seasonal_factor_length, (whole_days self H).
  unfold index. now rewrite length_map.
Qed.

Lemma generation_nth (self : EnergySystemCalculator) (pv : R) (years : Z) (h : nat) :
  (length (consumption_profile self) mod 24 = 0)%nat ->
  (h < length (consumption_profile self))%nat ->
  nth h (map (fun s => hourly_generation pv * s * degradation_multiplier years)
             (seasonal_factor self)) 0
  = hourly_generation pv * diurnal (h mod 24) * degradation_multiplier years.
Proof.
  intros H Hh.
  rewrite (nth_indep _ 0
             ((fun s => hourly_generation pv * s * degradation_multiplier years) 0)).
  - rewrite (map_nth (fun s => hourly_generation pv * s * degradation_multiplier years)).
    rewrite seasonal_factor_nth; [reflexivity|]. now rewrite (whole_days self H).
  - now rewrite length_map, seasonal_factor_length, (whole_days self H).
Qed.

(** ** Sample profiles *)

Lemma flat_profile_index (n : nat) (c : R) :
  index (flat_profile n c) = map Z.of_nat (seq 0 n).
Proof. unfold index, flat_profile. rewrite map_map. reflexivity. Qed.

Lemma flat_profile_values (n : nat) (c : R) :
  values (flat_profile n c) = repeat c n.
Proof.
  unfold values, flat_profile. rewrite map_map. simpl.
  rewrite map_const. now rewrite length_seq.
Qed.

Lemma flat_profile_length (n : nat) (c : R) : length (flat_profile n c) = n.
Proof. unfold flat_profile. now rewrite length_map, length_seq. Qed.

Lemma flat_profile_NoDup (n : nat) (c : R) : NoDup (index (flat_profile n c)).
Proof.
  rewrite flat_profile_index. apply Injective_map_NoDup.
  - intros x y. apply Nat2Z.inj.
  - apply seq_NoDup.
Qed.

Lemma flat_profile_aligned (n : nat) (c g : R) :
  aligned (flat_profile n c) (flat_profile n g).
Proof.
  split; [now rewrite !flat_profile_index | apply flat_profile_NoDup].
Qed.

Lemma flat_profile_nonneg (n : nat) (c : R) :
  0 <= c -> nonneg (values (flat_profile n c)).
Proof.
  intros Hc. rewrite flat_profile_values. unfold nonneg.
  apply Forall_forall. intros x Hx. apply repeat_spec in Hx. now subst.
Qed.

Lemma sum_repeat (c : R) (n : nat) : sum (repeat c n) = INR n * c.
Proof.
  induction n as [|n IH]; [simpl; lra|].
  rewrite S_INR. simpl. rewrite IH. lra.
Qed.

(** ** The dispatch simulator on aligned series *)

Lemma adjusted_capacity_nonneg (cap : R) :
  0 <= cap -> 0 <= adjusted_capacity_of cap.
Proof. unfold adjusted_capacity_of, battery_degradation. intros H. lra. Qed.

Lemma dispatch_init_ok (adj : R) : 0 <= adj -> level_ok adj dispatch_init.
Proof. unfold level_ok. simpl. lra. Qed.

Lemma calculate_autoconsumption_aligned (self : EnergySystemCalculator)
    (gen : Series) (p cap : R) (cyc : Z) :
  aligned (consumption_profile self) gen ->
  calculate_autoconsumption self gen p cap cyc
  = let st := run_steps (adjusted_capacity_of cap) p
                (combine gen (values (consumption_profile self))) dispatch_init in
    Ok (np_divide (autokonsumed st) (sum (values (consumption_profile self))),
        dict (storage_levels st)).
Proof.
  intros Hal. unfold calculate_autoconsumption.
  now rewrite (dispatch_loop_aligned _ _ _ _ _ Hal).
Qed.

Lemma autokonsumed_bounds (self : EnergySystemCalculator)
    (gen : Series) (p cap : R) :
  aligned (consumption_profile self) gen ->
  nonneg (values gen) -> nonneg (values (consumption_profile self)) ->
  0 <= p -> 0 <= cap ->
  0 <= autokonsumed
         (run_steps (adjusted_capacity_of cap) p
            (combine gen (values (consumption_profile self))) dispatch_init)
    <= sum (values (consumption_profile self)).
Proof.
  intros Hal Hg Hc Hp Hcap. pose proof (aligned_length _ _ Hal) as Hlen. split.
  - change 0 with (autokonsumed dispatch_init) at 1.
    apply run_steps_autokonsumed_nonneg; try assumption.
    + apply dispatch_init_ok. now apply adjusted_capacity_nonneg.
    + now rewrite combine_gens.
    + now rewrite combine_demands.
  - pose proof (run_steps_autokonsumed_le (adjusted_capacity_of cap) p
                  (combine gen (values (consumption_profile self))) dispatch_init) as H.
    rewrite combine_demands in H by assumption. simpl in H. lra.
Qed.

Lemma np_divide_finite (a b : R) : b <> 0 -> np_divide a b = Finite (a / b).
Proof. intros Hb. unfold np_divide. now destruct (Req_EM_T b 0). Qed.

Lemma quotient_unit (a b : R) : 0 <= a <= b -> 0 < b -> 0 <= a / b <= 1.
Proof.
  intros Ha Hb. unfold Rdiv.
  assert (Hi : 0 < / b) by now apply Rinv_0_lt_compat.
  assert (Hr : b * / b = 1) by (apply Rinv_r; lra).
  split; nra.
Qed.

Lemma np_divide_nan : np_divide 0 0 = NaN.
Proof.
  unfold np_divide. destruct (Req_EM_T 0 0) as [_|H]; [|now contradiction H].
  reflexivity.
Qed.

Lemma prefix_state (self : EnergySystemCalculator) (gen : Series) (p cap : R) (n : nat) :
  aligned (consumption_profile self) gen ->
  dispatch_loop (adjusted_capacity_of cap) p (consumption_profile self)
    (firstn n gen) dispatch_init
  = Ok (run_steps (adjusted_capacity_of cap) p
          (combine (firstn n gen) (values (firstn n (consumption_profile self))))
          dispatch_init).
Proof. intros Hal. now apply dispatch_loop_prefix. Qed.

Lemma dispatch_step_surplus (adj p : R) (st : dispatch_state) (t : timestamp) (g d : R) :
  d < g ->
  dispatch_step adj p st t g d
  = let level' :=
      storage_level st + Rmin (adj - storage_level st) (Rmin p (g - d)) in
    {| storage_level := level';
       autokonsumed := autokonsumed st + d;
       storage_levels := storage_levels st ++ [(t, level')] |}.
Proof. intros H. unfold dispatch_step. now rewrite battery_step_surplus. Qed.

Lemma dispatch_step_deficit (adj p : R) (st : dispatch_state) (t : timestamp) (g d : R) :
  g <= d ->
  dispatch_step adj p st t g d
  = let discharge := Rmin (storage_level st) (Rmin p (d - g)) in
    {| storage_level := storage_level st - discharge;
       autokonsumed := autokonsumed st + (g + discharge);
       storage_levels := storage_levels st ++ [(t, storage_level st - discharge)] |}.
Proof. intros H. unfold dispatch_step. now rewrite battery_step_deficit. Qed.

(** ** Every run of the loop, aligned or not *)

Lemma dispatch_loop_app (adj p : R) (c : Series) :
  forall l1 l2 st,
    dispatch_loop adj p c (l1 ++ l2) st
    = match dispatch_loop adj p c l1 st with
      | Ok st1 => dispatch_loop adj p c l2 st1
      | Raise e => Raise e
      end.
Proof.
  induction l1 as [|[t g] l1 IH]; intros l2 st; simpl; [reflexivity|].
  destruct (loc c t); [apply IH|reflexivity].
Qed.


Lemma dispatch_loop_level_ok (adj p : R) (c : Series) :
  0 <= p ->
  forall items st st',
    dispatch_loop adj p c items st = Ok st' ->
    level_ok adj st -> levels_ok adj (storage_levels st) ->
    level_ok adj st' /\ levels_ok adj (storage_levels st').
Proof.
  intros Hp. induction items as [|[t g] items IH]; intros st st' Hrun Hst Hls.
  - simpl in Hrun. inversion Hrun; subst. split; assumption.
  - simpl in Hrun. destruct (loc c t) as [d|e]; [|discriminate].
    assert (Hst1 : level_ok adj (dispatch_step adj p st t g d)).
    { unfold level_ok. rewrite dispatch_step_level. now apply battery_step_level. }
    apply (IH _ _ Hrun Hst1).
    rewrite dispatch_step_levels. apply Forall_app. split; [exact Hls|].
    constructor; [exact Hst1|constructor].
Qed.


Lemma dispatch_loop_prefix_returns (adj p : R) (c : Series) (items : Series)
    (st st' : dispatch_state) (n : nat) :
  dispatch_loop adj p c items st = Ok st' ->
  exists st1, dispatch_loop adj p c (firstn n items) st = Ok st1.
Proof.
  intros Hrun. rewrite <- (firstn_skipn n items), dispatch_loop_app in Hrun.
  destruct (dispatch_loop adj p c (firstn n items) st) as [st1|e];
    [now exists st1|discriminate].
Qed.


Lemma calculate_autoconsumption_inv (self : EnergySystemCalculator) (gen : Series)
    (p cap : R) (cyc : Z) (ratio : npfloat) (profile : Series) :
  calculate_autoconsumption self gen p cap cyc = Ok (ratio, profile) ->
  exists st,
    dispatch_loop (adjusted_capacity_of cap) p (consumption_profile self)
      gen dispatch_init = Ok st
    /\ ratio = np_divide (autokonsumed st) (sum (values (consumption_profile self)))
    /\ profile = dict (storage_levels st).
Proof.
  unfold calculate_autoconsumption.
  destruct (dispatch_loop (adjusted_capacity_of cap) p (consumption_profile self)
              gen dispatch_init) as [st|e]; [|discriminate].
  intros H. inversion H. now exists st.
Qed.

(** ** Claims on the dispatch simulator *)

Lemma ratio_three_run :
  length echo_sun = length (consumption_profile one_then_idle)
  /\ nonneg (values echo_sun)
  /\ nonneg (values (consumption_profile one_then_idle))
  /\ 0 <= 5 /\ 0 <= 20
  /\ 0 < sum (values (consumption_profile one_then_idle))
  /\ calculate_autoconsumption one_then_idle echo_sun 5 20 4000
     = Ok (Finite 3, [(0%Z, 0)])
  /\ ~ 3 <= 1.
Proof.
  split; [reflexivity|].
  split; [unfold nonneg; simpl; repeat (apply Forall_cons; [lra|]); apply Forall_nil|].
  split; [unfold nonneg; simpl; repeat (apply Forall_cons; [lra|]); apply Forall_nil|].
  split; [lra|]. split; [lra|].
  split; [simpl; lra|].
  split; [|lra].
  unfold calculate_autoconsumption, one_then_idle, echo_sun. simpl dispatch_loop.
  assert (H1 : dispatch_step (adjusted_capacity_of 20) 5 dispatch_init 0%Z 1 1
               = mkState 0 1 [(0%Z, 0)]).
  { rewrite dispatch_step_deficit by lra. simpl. state_eq. }
  rewrite H1.
  assert (H2 : dispatch_step (adjusted_capacity_of 20) 5
                 (mkState 0 1 [(0%Z, 0)]) 0%Z 1 1
               = mkState 0 2 [(0%Z, 0); (0%Z, 0)]).
  { rewrite dispatch_step_deficit by lra. simpl. state_eq. }
  rewrite H2.
  assert (H3 : dispatch_step (adjusted_capacity_of 20) 5
                 (mkState 0 2 [(0%Z, 0); (0%Z, 0)]) 0%Z 1 1
               = mkState 0 3 [(0%Z, 0); (0%Z, 0); (0%Z, 0)]).
  { rewrite dispatch_step_deficit by lra. simpl. state_eq. }
  rewrite H3. simpl.
  rewrite np_divide_finite by lra. repeat f_equal. lra.
Qed.

(** C2 (as stated, refuted): series of equal length and non-negative values
    do not bound the ratio.  The generation series carries the label 0 three
    times, each lookup finds the one demand of 1 kWh and counts it as used,
    and the ratio is 3. *)
Lemma ratio_three_on_repeated_label :
  length echo_sun = length (consumption_profile one_then_idle)
  /\ nonneg (values echo_sun)
  /\ nonneg (values (consumption_profile one_then_idle))
  /\ 0 <= 5 /\ 0 <= 20
  /\ 0 < sum (values (consumption_profile one_then_idle))
  /\ calculate_autoconsumption one_then_idle echo_sun 5 20 4000
     = Ok (Finite 3, [(0%Z, 0)])
  /\ ~ 3 <= 1.
Proof. exact ratio_three_run. Qed.

(** C2 (amended), over real numbers.  For every run of the dispatch
    simulator with storage_power_kw >= 0 and storage_capacity_kwh >= 0,
    whatever the two series: after every step the loop completes the storage
    level lies between 0 and the adjusted capacity, the direct_use of every
    step is at most the demand of that step, and a run that returns has
    completed every step and returns a storage series within the same
    bounds.  For series indexed alike (unique timestamps) with non-negative
    values the run returns, and when the total consumption is positive the
    ratio is a number in [0, 1]. *)
Theorem dispatch_invariants (self : EnergySystemCalculator) (gen : Series)
    (p cap : R) (cyc : Z) :
  0 <= p -> 0 <= cap ->
  (forall n st,
      dispatch_loop (adjusted_capacity_of cap) p (consumption_profile self)
        (firstn n gen) dispatch_init = Ok st ->
      0 <= storage_level st <= adjusted_capacity_of cap
      /\ forall t g demand,
           nth_error gen n = Some (t, g) ->
           loc (consumption_profile self) t = Ok demand ->
           snd (battery_step (adjusted_capacity_of cap) p
                  (storage_level st) g demand) <= demand)
  /\ (forall ratio profile,
        calculate_autoconsumption self gen p cap cyc = Ok (ratio, profile) ->
        levels_ok (adjusted_capacity_of cap) profile
        /\ forall n, exists st,
             dispatch_loop (adjusted_capacity_of cap) p (consumption_profile self)
               (firstn n gen) dispatch_init = Ok st)
  /\ (aligned (consumption_profile self) gen ->
      nonneg (values gen) ->
      nonneg (values (consumption_profile self)) ->
      exists ratio profile,
        calculate_autoconsumption self gen p cap cyc = Ok (ratio, profile)
        /\ (0 < sum (values (consumption_profile self)) ->
            exists r, ratio = Finite r /\ 0 <= r <= 1)).
Proof.
  intros Hp Hcap.
  pose proof (adjusted_capacity_nonneg cap Hcap) as Hadj.
  split; [|split].
  - intros n st Hrun. split.
    + apply (dispatch_loop_level_ok _ _ _ Hp _ _ _ Hrun);
        [now apply dispatch_init_ok|constructor].
    + intros t g demand _ _. apply battery_step_direct_le.
  - intros ratio profile Hrun.
    destruct (calculate_autoconsumption_inv _ _ _ _ _ _ _ Hrun) as [st [Hst [_ Hprof]]].
    split.
    + subst profile. apply dict_levels.
      apply (dispatch_loop_level_ok _ _ _ Hp _ _ _ Hst);
        [now apply dispatch_init_ok|constructor].
    + intros n. eapply dispatch_loop_prefix_returns. exact Hst.
  - intros Hal Hg Hc.
    rewrite (calculate_autoconsumption_aligned self gen p cap cyc Hal).
    eexists; eexists; split; [reflexivity|].
    intros Hpos.
    pose proof (autokonsumed_bounds self gen p cap Hal Hg Hc Hp Hcap) as [Hlo Hhi].
    rewrite np_divide_finite by lra. eexists; split; [reflexivity|].
    apply quotient_unit; [split|]; assumption.
Qed.

Lemma dispatch_invariants_witness :
  0 <= 5 /\ 0 <= 20
  /\ aligned (consumption_profile flat_day) sunny
  /\ nonneg (values sunny)
  /\ nonneg (values (consumption_profile flat_day))
  /\ (exists ratio profile,
        calculate_autoconsumption flat_day sunny 5 20 4000 = Ok (ratio, profile)
        /\ levels_ok (adjusted_capacity_of 20) profile)
  /\ levels_ok (adjusted_capacity_of 20) [(0%Z, 0)].
Proof.
  assert (H1 : 0 <= 5) by lra.
  assert (H2 : 0 <= 20) by lra.
  assert (H3 : aligned (consumption_profile flat_day) sunny)
    by apply flat_profile_aligned.
  assert (H4 : nonneg (values sunny)) by (apply flat_profile_nonneg; lra).
  assert (H5 : nonneg (values (consumption_profile flat_day)))
    by (apply flat_profile_nonneg; lra).
  repeat (split; [assumption|]).
  split.
  - destruct (dispatch_invariants flat_day sunny 5 20 4000 H1 H2)
      as [_ [Hret Hal]].
    destruct (Hal H3 H4 H5) as [ratio [profile [Hrun _]]].
    exists ratio, profile. split; [exact Hrun|].
    exact (proj1 (Hret ratio profile Hrun)).
  - destruct (dispatch_invariants one_then_idle echo_sun 5 20 4000 H1 H2)
      as [_ [Hret _]].
    destruct ratio_three_run as [_ [_ [_ [_ [_ [_ [Hrun _]]]]]]].
    exact (proj1 (Hret (Finite 3) [(0%Z, 0)] Hrun)).
Defined.




(** ** Claims on the generation model *)



Lemma seasonal_factor_nonneg (self : EnergySystemCalculator) :
  nonneg (seasonal_factor self).
Proof.
  unfold nonneg, seasonal_factor, np_tile. apply Forall_forall. intros x Hx.
  apply in_concat in Hx. destruct Hx as [l [Hl Hx]].
  apply repeat_spec in Hl. subst l. unfold np_clip in Hx.
  apply in_map_iff in Hx. destruct Hx as [y [Hy _]]. subst x. crunch_minmax.
Qed.

Lemma hourly_generation_nonneg (pv : R) : 0 <= pv -> 0 <= hourly_generation pv.
Proof.
  intros H. unfold hourly_generation, annual_generation_per_kw, system_losses. lra.
Qed.

Lemma generation_nonneg (self : EnergySystemCalculator) (pv : R) (years : Z) :
  0 <= pv ->
  nonneg (map (fun s => hourly_generation pv * s * degradation_multiplier years)
              (seasonal_factor self)).
Proof.
  intros Hpv. unfold nonneg. apply Forall_map.
  pose proof (seasonal_factor_nonneg self) as Hs. unfold nonneg in Hs.
  eapply Forall_impl; [|exact Hs]. intros s H0. simpl in H0 |- *.
  pose proof (hourly_generation_nonneg pv Hpv).
  pose proof (degradation_multiplier_pos years).
  apply Rmult_le_pos; [apply Rmult_le_pos|]; lra.
Qed.

Lemma simulate_pv_generation_spec (self : EnergySystemCalculator)
    (pv : R) (years : Z) (w : world) :
  (-100000 <= years)%Z ->
  (length (consumption_profile self) mod 24 = 0)%nat ->
  exists g,
    fst (simulate_pv_generation self pv years w) = Ok g
    /\ index g = index (consumption_profile self)
    /\ (forall h, (h < length (consumption_profile self))%nat ->
          nth h (values g) 0
          = hourly_generation pv * diurnal (h mod 24) * degradation_multiplier years)
    /\ (0 <= pv -> nonneg (values g)).
Proof.
  intros Hy H. eexists. split; [now apply simulate_pv_generation_returns|].
  split; [now apply generation_index|]. split.
  - intros h Hh. rewrite generation_values by assumption.
    now apply generation_nth.
  - intros Hpv. rewrite generation_values by assumption.
    now apply generation_nonneg.
Qed.



Lemma flat_day_whole : (length (consumption_profile flat_day) mod 24 = 0)%nat.
Proof.
  change (consumption_profile flat_day) with (flat_profile 24 1).
  now rewrite flat_profile_length.
Qed.



(** C4: on a profile of 25 hours (a length that is not a multiple of 24) the
    generation model returns no series: it tiles 24 values against an index
    of 25 and the construction of the series raises ValueError. *)
Theorem generation_partial_day_raises (w : world) :
  length (consumption_profile long_day) = 25%nat
  /\ length (seasonal_factor long_day) = 24%nat
  /\ fst (simulate_pv_generation long_day 10 1 w) = Raise ValueError.
Proof.
  assert (Hlen : length (consumption_profile long_day) = 25%nat)
    by (change (consumption_profile long_day) with (flat_profile 25 1);
        now rewrite flat_profile_length).
  split; [exact Hlen|]. split.
  - rewrite seasonal_factor_length, Hlen. reflexivity.
  - apply simulate_pv_generation_raises; [lia|]. rewrite Hlen. discriminate.
Qed.

(** ** Hidden state *)








(** ** Arguments out of their domain *)







(** ** Zero consumption *)

Lemma calculate_autoconsumption_zero_total (self : EnergySystemCalculator)
    (gen : Series) (p cap : R) (cyc : Z) :
  aligned (consumption_profile self) gen ->
  nonneg (values gen) ->
  nonneg (values (consumption_profile self)) ->
  0 <= p -> 0 <= cap ->
  sum (values (consumption_profile self)) = 0 ->
  exists profile,
    calculate_autoconsumption self gen p cap cyc = Ok (NaN, profile)
    /\ levels_ok (adjusted_capacity_of cap) profile.
Proof.
  intros Hal Hg Hc Hp Hcap Hz.
  pose proof (autokonsumed_bounds self gen p cap Hal Hg Hc Hp Hcap) as Hb.
  rewrite (calculate_autoconsumption_aligned self gen p cap cyc Hal). simpl.
  rewrite Hz in *.
  replace (autokonsumed _) with 0 by lra.
  rewrite np_divide_nan. eexists; split; [reflexivity|].
  apply dict_levels. apply run_steps_levels; try assumption.
  - apply dispatch_init_ok. now apply adjusted_capacity_nonneg.
  - constructor.
Qed.

Lemma idle_day_total : sum (values (consumption_profile idle_day)) = 0.
Proof.
  change (consumption_profile idle_day) with (flat_profile 24 0).
  rewrite flat_profile_values, sum_repeat. lra.
Qed.

(** C3 (as stated, refuted): on a day of zero consumption the dispatch
    simulator does not fail; it returns nan as the ratio, with a storage
    series. *)
Lemma zero_consumption_returns_nan :
  sum (values (consumption_profile idle_day)) = 0
  /\ exists profile,
       calculate_autoconsumption idle_day sunny 5 20 4000 = Ok (NaN, profile).
Proof.
  split; [exact idle_day_total|].
  destruct (calculate_autoconsumption_zero_total idle_day sunny 5 20 4000)
    as [profile [H _]].
  - apply flat_profile_aligned.
  - apply flat_profile_nonneg; lra.
  - apply flat_profile_nonneg; lra.
  - lra.
  - lra.
  - exact idle_day_total.
  - now exists profile.
Qed.

(** C3 (amended): when the total of the consumption series is zero the
    dispatch simulator raises nothing.  On series indexed alike, with
    non-negative values and storage_power_kw >= 0, storage_capacity_kwh >= 0,
    it returns the quotient numpy computes for 0 / 0, nan, together with the
    storage series. *)
Theorem zero_consumption_is_nan (self : EnergySystemCalculator)
    (gen : Series) (p cap : R) (cyc : Z) :
  aligned (consumption_profile self) gen ->
  nonneg (values gen) ->
  nonneg (values (consumption_profile self)) ->
  0 <= p -> 0 <= cap ->
  sum (values (consumption_profile self)) = 0 ->
  exists profile,
    calculate_autoconsumption self gen p cap cyc = Ok (NaN, profile)
    /\ levels_ok (adjusted_capacity_of cap) profile.
Proof. apply calculate_autoconsumption_zero_total. Qed.

Lemma zero_consumption_is_nan_witness :
  aligned (consumption_profile idle_day) sunny
  /\ nonneg (values sunny)
  /\ nonneg (values (consumption_profile idle_day))
  /\ 0 <= 5 /\ 0 <= 20
  /\ sum (values (consumption_profile idle_day)) = 0
  /\ exists profile,
       calculate_autoconsumption idle_day sunny 5 20 4000 = Ok (NaN, profile)
       /\ levels_ok (adjusted_capacity_of 20) profile.
Proof.
  assert (H1 : aligned (consumption_profile idle_day) sunny)
    by apply flat_profile_aligned.
  assert (H2 : nonneg (values sunny)) by (apply flat_profile_nonneg; lra).
  assert (H3 : nonneg (values (consumption_profile idle_day)))
    by (apply flat_profile_nonneg; lra).
  assert (H4 : 0 <= 5) by lra.
  assert (H5 : 0 <= 20) by lra.
  pose proof idle_day_total as H6.
  repeat (split; [assumption|]).
  exact (zero_consumption_is_nan idle_day sunny 5 20 4000 H1 H2 H3 H4 H5 H6).
Defined.

(** ** The sizing search *)

Lemma candidate_pv_succ (k : nat) : candidate_pv k + 2 = candidate_pv (S k).
Proof. unfold candidate_pv. rewrite S_INR. lra. Qed.

Lemma candidate_power_succ (k : nat) : candidate_power k + 1 = candidate_power (S k).
Proof. unfold candidate_power. rewrite S_INR. lra. Qed.

Lemma candidate_capacity_succ (k : nat) :
  candidate_capacity k + 5 = candidate_capacity (S k).
Proof. unfold candidate_capacity. rewrite S_INR. lra. Qed.

Lemma candidate_start :
  candidate_pv 0 = 10 /\ candidate_power 0 = 5 /\ candidate_capacity 0 = 20.
Proof. unfold candidate_pv, candidate_power, candidate_capacity. simpl. lra. Qed.

Lemma optimize_loop_pass (fuel : nat) (self : EnergySystemCalculator)
    (target : R) (k : nat) (w : world) :
  optimize_loop (S fuel) self target
    (candidate_pv k) (candidate_power k) (candidate_capacity k) w
  = match attempt self k with
    | Raise e => Some (Raise e, mkWorld 42)
    | Ok (gen, (autocons, profile)) =>
        if np_ge autocons target then
          Some (Ok {| pv_size_kw := candidate_pv k;
                      storage_power_kw := candidate_power k;
                      storage_capacity_kwh := candidate_capacity k;
                      autoconsumption := autocons;
                      pv_generation := gen;
                      storage_profile := profile |}, mkWorld 42)
        else
          optimize_loop fuel self target
            (candidate_pv (S k)) (candidate_power (S k)) (candidate_capacity (S k))
            (mkWorld 42)
    end.
Proof.
  unfold attempt. cbn [optimize_loop].
  rewrite !simulate_pv_generation_in_range by lia. cbn [fst].
  destruct (pd_Series
              (map (fun s => hourly_generation (candidate_pv k) * s
                             * degradation_multiplier 1) (seasonal_factor self))
              (index (consumption_profile self))) as [gen|e]; [|reflexivity].
  destruct (calculate_autoconsumption self gen _ _ 4000) as [[a prof]|e];
    [|reflexivity].
  now rewrite candidate_pv_succ, candidate_power_succ, candidate_capacity_succ.
Qed.

Lemma optimize_loop_world (fuel : nat) (self : EnergySystemCalculator)
    (target pv sp sc : R) (w1 w2 : world) :
  optimize_loop fuel self target pv sp sc w1
  = optimize_loop fuel self target pv sp sc w2.
Proof. destruct fuel; reflexivity. Qed.

Lemma optimize_loop_skip (self : EnergySystemCalculator) (target : R) :
  forall n k fuel w,
    (forall j, (k <= j < k + n)%nat -> below_target self target j) ->
    optimize_loop (n + fuel) self target
      (candidate_pv k) (candidate_power k) (candidate_capacity k) w
    = optimize_loop fuel self target
        (candidate_pv (k + n)) (candidate_power (k + n)) (candidate_capacity (k + n)) w.
Proof.
  induction n as [|n IH]; intros k fuel w Hbelow.
  - now rewrite Nat.add_0_r.
  - change (S n + fuel)%nat with (S (n + fuel)). rewrite optimize_loop_pass.
    destruct (Hbelow k) as [g [a [s [Hatt Hge]]]]; [lia|].
    rewrite Hatt, Hge. rewrite IH by (intros j Hj; apply Hbelow; lia).
    replace (S k + n)%nat with (k + S n)%nat by lia.
    apply optimize_loop_world.
Qed.

Lemma optimize_loop_exhausted (self : EnergySystemCalculator) (target : R)
    (fuel k : nat) (w : world) :
  (forall j, (k <= j < k + fuel)%nat -> below_target self target j) ->
  optimize_loop fuel self target
    (candidate_pv k) (candidate_power k) (candidate_capacity k) w = None.
Proof.
  intros Hbelow.
  pose proof (optimize_loop_skip self target fuel k 0%nat w Hbelow) as H.
  rewrite Nat.add_0_r in H. exact H.
Qed.

Lemma optimize_system_candidates (fuel : nat) (self : EnergySystemCalculator)
    (target : R) (w : world) :
  optimize_system fuel self target w
  = optimize_loop fuel self target
      (candidate_pv 0) (candidate_power 0) (candidate_capacity 0) w.
Proof.
  destruct candidate_start as [-> [-> ->]]. reflexivity.
Qed.

(** *** The first hour of a day: no sun, empty battery *)

Lemma diurnal_midnight : diurnal 0 = 0.
Proof.
  unfold diurnal. replace (INR 0 * PI / 23) with 0 by (simpl; lra).
  rewrite sin_0. crunch_minmax.
Qed.

Lemma battery_step_dark_empty (adj p d : R) :
  0 <= p -> 0 < d -> battery_step adj p 0 0 d = (0, 0).
Proof.
  intros Hp Hd. unfold battery_step. crunch_minmax; f_equal; lra.
Qed.

Lemma candidate_nonneg (k : nat) :
  0 <= candidate_pv k /\ 0 <= candidate_power k /\ 0 <= candidate_capacity k.
Proof.
  unfold candidate_pv, candidate_power, candidate_capacity.
  pose proof (pos_INR k). lra.
Qed.

Lemma attempt_ratio (self : EnergySystemCalculator) (t0 : timestamp) (d0 : R)
    (k : nat) :
  (length (consumption_profile self) mod 24 = 0)%nat ->
  NoDup (index (consumption_profile self)) ->
  nonneg (values (consumption_profile self)) ->
  hd_error (consumption_profile self) = Some (t0, d0) ->
  0 < d0 ->
  exists g r s,
    attempt self k = Ok (g, (Finite r, s)) /\ 0 <= r < 1.
Proof.
  intros Hlen Hnd Hc Hhd Hd0.
  destruct (candidate_nonneg k) as [Hpv [Hp Hcap]].
  destruct (simulate_pv_generation_spec self (candidate_pv k) 1 (mkWorld 42) ltac:(lia) Hlen)
    as [g [Hg [Hi [Hn Hnn]]]].
  specialize (Hnn Hpv).
  assert (Hal : aligned (consumption_profile self) g) by (split; assumption).
  unfold attempt. rewrite Hg.
  rewrite (calculate_autoconsumption_aligned self g _ _ 4000 Hal). cbv zeta.
  pose proof (autokonsumed_bounds self g _ _ Hal Hnn Hc Hp Hcap) as [Hlo _].
  pose proof (aligned_length _ _ Hal) as Hlg.
  set (adj := adjusted_capacity_of (candidate_capacity k)) in *.
  set (p := candidate_power k) in *.
  destruct (consumption_profile self) as [|[t0' d0'] rest] eqn:Hcp;
    [discriminate|].
  simpl in Hhd. inversion Hhd; subst t0' d0'. clear Hhd.
  destruct g as [|[t1 v0] g']; [discriminate|].
  assert (Hv0 : v0 = 0).
  { specialize (Hn 0%nat). simpl in Hn. rewrite Hn by lia.
    change (0 mod 24)%nat with 0%nat. rewrite diurnal_midnight. lra. }
  subst v0.
  assert (Hhi : autokonsumed
                  (run_steps adj p (combine ((t1, 0) :: g') (values ((t0, d0) :: rest)))
                     dispatch_init)
                <= sum (values rest)).
  { simpl combine. rewrite run_steps_cons. simpl fst. simpl snd.
    eapply Rle_trans; [apply run_steps_autokonsumed_le|].
    rewrite dispatch_step_autokonsumed. simpl storage_level.
    rewrite battery_step_dark_empty by assumption. simpl.
    rewrite combine_demands by (simpl in Hlg; now inversion Hlg). lra. }
  inversion Hc as [|? ? _ Hrest]; subst.
  pose proof (sum_nonneg _ Hrest) as Hsum.
  assert (Htot : sum (values ((t0, d0) :: rest)) = d0 + sum (values rest))
    by reflexivity.
  rewrite np_divide_finite by lra.
  eexists; eexists; eexists. split; [reflexivity|].
  set (a := autokonsumed _) in *. rewrite Htot.
  assert (Hi' : 0 < / (d0 + sum (values rest))) by (apply Rinv_0_lt_compat; lra).
  assert (Hr : (d0 + sum (values rest)) * / (d0 + sum (values rest)) = 1)
    by (apply Rinv_r; lra).
  unfold Rdiv. split; nra.
Qed.

Lemma flat_day_ratio (k : nat) :
  exists g r s, attempt flat_day k = Ok (g, (Finite r, s)) /\ 0 <= r < 1.
Proof.
  apply (attempt_ratio flat_day 0%Z 1 k).
  - exact flat_day_whole.
  - apply flat_profile_NoDup.
  - apply flat_profile_nonneg; lra.
  - reflexivity.
  - lra.
Qed.

Lemma np_ge_below (r m : R) : r < m -> np_ge (Finite r) m = false.
Proof. intros H. simpl. destruct (Rle_dec m r); [lra|reflexivity]. Qed.

Lemma np_ge_reached (r m : R) : m <= r -> np_ge (Finite r) m = true.
Proof. intros H. simpl. destruct (Rle_dec m r); [reflexivity|lra]. Qed.

Lemma flat_day_below_full (j : nat) : below_target flat_day 1 j.
Proof.
  destruct (flat_day_ratio j) as [g [r [s [Hatt Hr]]]].
  exists g, (Finite r), s. split; [exact Hatt|]. apply np_ge_below. lra.
Qed.

(** C1 (as stated, refuted): on a day of 24 hours consuming 1 kWh each and
    the target ratio 1, the search leaves its loop after no number of passes:
    hour 0 has no sun and an empty battery, so every candidate stays below
    1. *)
Lemma search_never_returns :
  ~ exists fuel out, optimize_system fuel flat_day 1 w0 = Some out.
Proof.
  intros [fuel [out H]].
  rewrite optimize_system_candidates in H.
  rewrite optimize_loop_exhausted in H; [discriminate|].
  intros j _. apply flat_day_below_full.
Qed.

(** C1 (amended): the search has no cap on its passes and no
    UnreachableTarget outcome.  It tries the candidates (10 + 2k, 5 + k,
    20 + 5k), k = 0, 1, 2, ...; when candidate k is the first whose ratio
    reaches the target, the earlier ones having run below it, the search
    returns candidate k with its ratio and series at pass k + 1 and has not
    returned before; when every candidate runs below the target, it returns
    after no number of passes. *)
Theorem optimize_system_search (self : EnergySystemCalculator) (target : R)
    (w : world) :
  (forall k gen autocons profile,
      (forall j, (j < k)%nat -> below_target self target j) ->
      attempt self k = Ok (gen, (autocons, profile)) ->
      np_ge autocons target = true ->
      forall fuel,
        ((fuel <= k)%nat -> optimize_system fuel self target w = None)
        /\ ((k < fuel)%nat ->
            option_map fst (optimize_system fuel self target w)
            = Some (Ok {| pv_size_kw := candidate_pv k;
                          storage_power_kw := candidate_power k;
                          storage_capacity_kwh := candidate_capacity k;
                          autoconsumption := autocons;
                          pv_generation := gen;
                          storage_profile := profile |})))
  /\ ((forall j, below_target self target j) ->
      forall fuel, optimize_system fuel self target w = None).
Proof.
  split.
  - intros k gen autocons profile Hbelow Hatt Hge fuel.
    rewrite optimize_system_candidates. split; intros Hfuel.
    + apply optimize_loop_exhausted. intros j Hj. apply Hbelow. lia.
    + replace fuel with (k + S (fuel - S k))%nat by lia.
      rewrite optimize_loop_skip by (intros j Hj; apply Hbelow; lia).
      simpl (0 + k)%nat. rewrite optimize_loop_pass, Hatt, Hge. reflexivity.
  - intros Hbelow fuel. rewrite optimize_system_candidates.
    apply optimize_loop_exhausted. intros j _. apply Hbelow.
Qed.

Lemma optimize_system_search_witness :
  (exists gen autocons profile,
      attempt flat_day 0 = Ok (gen, (autocons, profile))
      /\ np_ge autocons 0 = true
      /\ option_map fst (optimize_system 1 flat_day 0 w0)
         = Some (Ok {| pv_size_kw := candidate_pv 0;
                       storage_power_kw := candidate_power 0;
                       storage_capacity_kwh := candidate_capacity 0;
                       autoconsumption := autocons;
                       pv_generation := gen;
                       storage_profile := profile |}))
  /\ ((forall j, below_target flat_day 1 j)
      /\ optimize_system 1000 flat_day 1 w0 = None).
Proof.
  split.
  - destruct (flat_day_ratio 0) as [g [r [s [Hatt Hr]]]].
    assert (Hge : np_ge (Finite r) 0 = true) by (apply np_ge_reached; lra).
    assert (Hnone : forall j, (j < 0)%nat -> below_target flat_day 0 j)
      by (intros j Hj; lia).
    exists g, (Finite r), s. split; [exact Hatt|]. split; [exact Hge|].
    apply (proj1 (optimize_system_search flat_day 0 w0) 0%nat g (Finite r) s
             Hnone Hatt Hge 1%nat).
    lia.
  - split; [exact flat_day_below_full|].
    exact (proj2 (optimize_system_search flat_day 1 w0) flat_day_below_full 1000%nat).
Defined.

(** ** A run of three hours *)

Example three_hours_run :
  calculate_autoconsumption three_hours midday_sun 5 20 4000
  = Ok (Finite (2 / 3), [(0%Z, 0); (1%Z, 2); (2%Z, 1)]).
Proof.
  unfold calculate_autoconsumption, three_hours, midday_sun. simpl dispatch_loop.
  assert (H1 : dispatch_step (adjusted_capacity_of 20) 5 dispatch_init 0%Z 0 1
               = mkState 0 0 [(0%Z, 0)]).
  { rewrite dispatch_step_deficit by lra. simpl. state_eq. }
  rewrite H1.
  assert (H2 : dispatch_step (adjusted_capacity_of 20) 5
                 (mkState 0 0 [(0%Z, 0)]) 1%Z 3 1
               = mkState 2 1 [(0%Z, 0); (1%Z, 2)]).
  { rewrite dispatch_step_surplus by lra.
    unfold adjusted_capacity_of, battery_degradation. simpl. state_eq. }
  rewrite H2.
  assert (H3 : dispatch_step (adjusted_capacity_of 20) 5
                 (mkState 2 1 [(0%Z, 0); (1%Z, 2)]) 2%Z 0 1
               = mkState 1 2 [(0%Z, 0); (1%Z, 2); (2%Z, 1)]).
  { rewrite dispatch_step_deficit by lra. simpl. state_eq. }
  rewrite H3. simpl.
  rewrite np_divide_finite by lra. repeat f_equal. lra.
Qed.

(** * Further properties of the code *)

(** ** Lookups that fail *)

Lemma loc_absent (c : Series) (t : timestamp) :
  ~ In t (index c) -> loc c t = Raise KeyError.
Proof. intros H. unfold loc. now rewrite filter_absent. Qed.

Lemma index_In (c : Series) (t : timestamp) :
  In t (index c) -> exists d, In (t, d) c.
Proof.
  unfold index. intros H. apply in_map_iff in H. destruct H as [[t' d] [Ht Hin]].
  simpl in Ht. subst t'. now exists d.
Qed.

Lemma dispatch_loop_missing (adj p : R) (c : Series) :
  NoDup (index c) ->
  forall items st,
    (exists t, In t (index items) /\ ~ In t (index c)) ->
    dispatch_loop adj p c items st = Raise KeyError.
Proof.
  intros Hnd. induction items as [|[t g] items IH]; intros st [t' [Hin Hout]].
  - contradiction.
  - simpl. destruct (in_dec Z.eq_dec t (index c)) as [Hc|Hc].
    + destruct (index_In c t Hc) as [d Hd].
      rewrite (loc_unique c t d Hnd Hd). apply IH. exists t'. split; [|exact Hout].
      destruct Hin as [Heq|Hin]; [|exact Hin].
      simpl in Heq. subst t'. contradiction.
    + now rewrite loc_absent.
Qed.

(** X1: a generation series with a timestamp that the consumption profile
    (unique timestamps) does not have makes the dispatch simulator raise
    KeyError; it returns no ratio. *)
Theorem missing_timestamp_raises (self : EnergySystemCalculator) (gen : Series)
    (p cap : R) (cyc : Z) (t : timestamp) :
  NoDup (index (consumption_profile self)) ->
  In t (index gen) ->
  ~ In t (index (consumption_profile self)) ->
  calculate_autoconsumption self gen p cap cyc = Raise KeyError.
Proof.
  intros Hnd Hin Hout. unfold calculate_autoconsumption.
  rewrite dispatch_loop_missing; [reflexivity|assumption|].
  exists t. split; assumption.
Qed.

Lemma missing_timestamp_raises_witness :
  NoDup (index (consumption_profile three_hours))
  /\ In 7%Z (index stray_sun)
  /\ ~ In 7%Z (index (consumption_profile three_hours))
  /\ calculate_autoconsumption three_hours stray_sun 5 20 4000 = Raise KeyError.
Proof.
  assert (H1 : NoDup (index (consumption_profile three_hours)))
    by (repeat constructor; simpl; intuition discriminate).
  assert (H2 : In 7%Z (index stray_sun)) by (simpl; tauto).
  assert (H3 : ~ In 7%Z (index (consumption_profile three_hours)))
    by (simpl; intuition discriminate).
  repeat (split; [assumption|]).
  exact (missing_timestamp_raises three_hours stray_sun 5 20 4000 7%Z H1 H2 H3).
Defined.

(** How often a timestamp occurs in an index. *)
Lemma filter_present (c : Series) (t : timestamp) :
  In t (index c) -> filter (fun e => Z.eqb (fst e) t) c <> [].
Proof.
  induction c as [|[k v] c IH]; simpl; intros H; [contradiction|].
  destruct (Z.eqb_spec k t) as [->|Hne]; [discriminate|].
  apply IH. destruct H as [H|H]; [contradiction|exact H].
Qed.

Lemma loc_present (c : Series) (t : timestamp) :
  In t (index c) ->
  (exists d, loc c t = Ok d) \/ loc c t = Raise ValueError.
Proof.
  intros H. apply filter_present in H. unfold loc.
  destruct (filter (fun e => Z.eqb (fst e) t) c) as [|e [|e' l]]; [contradiction| |].
  - left. now exists (snd e).
  - now right.
Qed.

Lemma loc_twice (c : Series) (t : timestamp) :
  (2 <= length (filter (fun e => Z.eqb (fst e) t) c))%nat ->
  loc c t = Raise ValueError.
Proof.
  unfold loc. destruct (filter (fun e => Z.eqb (fst e) t) c) as [|e [|e' l]]; simpl; intros H;
    [lia|lia|reflexivity].
Qed.

Lemma loc_once (c : Series) (t : timestamp) (d : R) :
  loc c t = Ok d -> length (filter (fun e => Z.eqb (fst e) t) c) = 1%nat.
Proof.
  unfold loc. destruct (filter (fun e => Z.eqb (fst e) t) c) as [|e [|e' l]]; simpl; intros H;
    [discriminate|reflexivity|discriminate].
Qed.

Lemma repeated_timestamp (c : Series) :
  ~ NoDup (index c) ->
  exists t, In t (index c)
            /\ (2 <= length (filter (fun e => Z.eqb (fst e) t) c))%nat.
Proof.
  induction c as [|[k v] c IH]; intros Hdup.
  - exfalso. apply Hdup. constructor.
  - destruct (in_dec Z.eq_dec k (index c)) as [Hin|Hout].
    + exists k. split; [now left|]. simpl. rewrite Z.eqb_refl. simpl.
      pose proof (filter_present c k Hin) as Hne.
      destruct (filter (fun e => Z.eqb (fst e) k) c); [contradiction|simpl; lia].
    + destruct IH as [t [Hin Hlen]].
      { intros Hnd. apply Hdup. simpl. now constructor. }
      exists t. split; [now right|]. simpl.
      destruct (Z.eqb k t); simpl; lia.
Qed.

Lemma dispatch_loop_repeated (adj p : R) (c : Series) :
  forall items st,
    (forall t, In t (index items) -> In t (index c)) ->
    (exists t, In t (index items)
               /\ (2 <= length (filter (fun e => Z.eqb (fst e) t) c))%nat) ->
    dispatch_loop adj p c items st = Raise ValueError.
Proof.
  induction items as [|[t g] items IH]; intros st Hall [t' [Hin Hlen]].
  - contradiction.
  - simpl. destruct (loc_present c t) as [[d Hd]|Hv].
    + apply Hall. now left.
    + rewrite Hd. apply IH.
      * intros u Hu. apply Hall. now right.
      * exists t'. split; [|exact Hlen].
        destruct Hin as [Heq|Hin]; [|exact Hin].
        simpl in Heq. subst t'. apply loc_once in Hd. lia.
    + now rewrite Hv.
Qed.

Lemma calculate_autoconsumption_repeated (self : EnergySystemCalculator) (gen : Series)
    (p cap : R) (cyc : Z) :
  index gen = index (consumption_profile self) ->
  ~ NoDup (index (consumption_profile self)) ->
  calculate_autoconsumption self gen p cap cyc = Raise ValueError.
Proof.
  intros Hidx Hdup. unfold calculate_autoconsumption.
  rewrite dispatch_loop_repeated; [reflexivity| |].
  - intros t Ht. now rewrite <- Hidx.
  - rewrite Hidx. now apply repeated_timestamp.
Qed.

(** X2: when the consumption profile has a timestamp twice, a generation
    series that carries the profile's index makes the dispatch simulator
    raise ValueError (the lookup of the demand hands back several rows). *)
Theorem repeated_timestamp_raises (self : EnergySystemCalculator) (gen : Series)
    (p cap : R) (cyc : Z) :
  index gen = index (consumption_profile self) ->
  ~ NoDup (index (consumption_profile self)) ->
  calculate_autoconsumption self gen p cap cyc = Raise ValueError.
Proof. apply calculate_autoconsumption_repeated. Qed.

Lemma repeated_timestamp_raises_witness :
  index twice_stamped_sun = index (consumption_profile twice_stamped)
  /\ ~ NoDup (index (consumption_profile twice_stamped))
  /\ calculate_autoconsumption twice_stamped twice_stamped_sun 5 20 4000
     = Raise ValueError.
Proof.
  assert (H1 : index twice_stamped_sun = index (consumption_profile twice_stamped))
    by reflexivity.
  assert (H2 : ~ NoDup (index (consumption_profile twice_stamped))).
  { intros H. inversion H as [|? ? _ H']. inversion H' as [|? ? Hin _].
    apply Hin. now left. }
  repeat (split; [assumption|]).
  exact (repeated_timestamp_raises twice_stamped twice_stamped_sun 5 20 4000 H1 H2).
Defined.

(** ** The storage series *)

Lemma dict_set_fresh (d : Series) (k : timestamp) (v : R) :
  ~ In k (index d) -> dict_set d k v = d ++ [(k, v)].
Proof.
  induction d as [|[k' v'] d IH]; simpl; intros H; [reflexivity|].
  destruct (Z.eqb_spec k' k) as [->|Hne].
  - exfalso. apply H. now left.
  - f_equal. apply IH. intros Hin. apply H. now right.
Qed.

Lemma dict_fold_NoDup (l acc : Series) :
  NoDup (index (acc ++ l)) ->
  fold_left (fun d kv => dict_set d (fst kv) (snd kv)) l acc = acc ++ l.
Proof.
  revert acc. induction l as [|[k v] l IH]; intros acc Hnd; simpl.
  - now rewrite app_nil_r.
  - assert (Hk : ~ In k (index acc)).
    { unfold index in *. rewrite map_app in Hnd. simpl in Hnd.
      apply NoDup_remove_2 in Hnd. intros Hin. apply Hnd.
      apply in_or_app. now left. }
    rewrite dict_set_fresh by assumption.
    rewrite IH; rewrite <- app_assoc; [reflexivity|exact Hnd].
Qed.

Lemma dict_NoDup (l : Series) : NoDup (index l) -> dict l = l.
Proof. intros H. unfold dict. now rewrite dict_fold_NoDup. Qed.

Lemma run_steps_snoc (adj p : R) steps (s : (timestamp * R) * R) st :
  run_steps adj p (steps ++ [s]) st
  = dispatch_step adj p (run_steps adj p steps st)
      (fst (fst s)) (snd (fst s)) (snd s).
Proof. unfold run_steps. now rewrite fold_left_app. Qed.

Lemma run_steps_trace (adj p : R) (st0 : dispatch_state) :
  forall steps,
    index (storage_levels (run_steps adj p steps st0))
    = index (storage_levels st0) ++ map (fun s => fst (fst s)) steps
    /\ forall n s,
         nth_error steps n = Some s ->
         nth_error (storage_levels (run_steps adj p steps st0))
                   (length (storage_levels st0) + n)
         = Some (fst (fst s),
                 storage_level (run_steps adj p (firstn (S n) steps) st0)).
Proof.
  induction steps as [|s steps IH] using rev_ind.
  - split; [simpl; now rewrite app_nil_r|]. intros [|n] s H; discriminate.
  - destruct IH as [IHi IHn]. rewrite run_steps_snoc, dispatch_step_levels.
    assert (Hlen : length (storage_levels (run_steps adj p steps st0))
                   = (length (storage_levels st0) + length steps)%nat).
    { apply (f_equal (@length _)) in IHi. unfold index in IHi.
      now rewrite length_app, !length_map in IHi. }
    split.
    + unfold index in *. rewrite !map_app, IHi. simpl. now rewrite app_assoc.
    + intros n s' Hn.
      destruct (Nat.lt_ge_cases n (length steps)) as [Hlt|Hge].
      * rewrite nth_error_app1 in Hn by assumption.
        rewrite nth_error_app1 by lia.
        rewrite (IHn n s' Hn). rewrite firstn_app.
        replace (S n - length steps)%nat with 0%nat by lia.
        simpl. now rewrite app_nil_r.
      * assert (Hlast : n = length steps).
        { assert (Hb : nth_error (steps ++ [s]) n <> None) by (rewrite Hn; discriminate).
          apply nth_error_Some in Hb. rewrite length_app in Hb. simpl in Hb. lia. }
        subst n. rewrite nth_error_app2 in Hn by lia.
        rewrite Nat.sub_diag in Hn. simpl in Hn. inversion Hn; subst s'.
        rewrite nth_error_app2 by lia.
        rewrite firstn_all2 by (rewrite length_app; simpl; lia).
        rewrite run_steps_snoc.
        replace (length (storage_levels st0) + length steps
                 - length (storage_levels (run_steps adj p steps st0)))%nat
          with 0%nat by lia.
        reflexivity.
Qed.

Lemma map_fst_fst_combine (items : Series) (ds : list R) :
  length items = length ds ->
  map (fun s : (timestamp * R) * R => fst (fst s)) (combine items ds)
  = index items.
Proof.
  revert ds. induction items as [|[t g] items IH]; intros [|d ds] H;
    simpl in *; try discriminate; [reflexivity|].
  f_equal. apply IH. now inversion H.
Qed.

Lemma nth_error_combine (items : Series) (ds : list R) (n : nat) (x : timestamp * R) :
  length items = length ds ->
  nth_error items n = Some x ->
  exists d, nth_error ds n = Some d /\ nth_error (combine items ds) n = Some (x, d).
Proof.
  revert ds n. induction items as [|a items IH]; intros [|d ds] [|n] Hlen Hn;
    simpl in *; try discriminate.
  - inversion Hn; subst. now exists d.
  - apply IH; [now inversion Hlen|exact Hn].
Qed.

Lemma prefix_steps (c gen : Series) (n : nat) :
  combine (firstn n gen) (values (firstn n c))
  = firstn n (combine gen (values c)).
Proof. unfold values. rewrite <- firstn_map. symmetry. apply combine_firstn. Qed.

Lemma calculate_autoconsumption_trace (self : EnergySystemCalculator) (gen : Series)
    (p cap : R) (cyc : Z) :
  aligned (consumption_profile self) gen ->
  exists ratio profile,
    calculate_autoconsumption self gen p cap cyc = Ok (ratio, profile)
    /\ index profile = index gen
    /\ forall n t g,
         nth_error gen n = Some (t, g) ->
         exists st,
           dispatch_loop (adjusted_capacity_of cap) p (consumption_profile self)
             (firstn (S n) gen) dispatch_init = Ok st
           /\ nth_error profile n = Some (t, storage_level st).
Proof.
  intros Hal. pose proof (aligned_length _ _ Hal) as Hlen.
  rewrite (calculate_autoconsumption_aligned self gen p cap cyc Hal). cbv zeta.
  set (steps := combine gen (values (consumption_profile self))).
  destruct (run_steps_trace (adjusted_capacity_of cap) p dispatch_init steps)
    as [Hidx Hnth].
  simpl in Hidx. unfold steps in Hidx at 2.
  rewrite map_fst_fst_combine in Hidx by assumption.
  assert (Hd : dict (storage_levels
                       (run_steps (adjusted_capacity_of cap) p steps dispatch_init))
               = storage_levels
                   (run_steps (adjusted_capacity_of cap) p steps dispatch_init)).
  { apply dict_NoDup. rewrite Hidx. destruct Hal as [Hi Hnd]. now rewrite Hi. }
  eexists; eexists; split; [reflexivity|]. rewrite Hd. split; [exact Hidx|].
  intros n t g Hn.
  destruct (nth_error_combine gen _ n (t, g) Hlen Hn) as [d [_ Hs]].
  fold steps in Hs. specialize (Hnth n _ Hs). simpl in Hnth.
  eexists. split; [now apply prefix_state|].
  rewrite prefix_steps. exact Hnth.
Qed.

(** X3: on series indexed alike (unique timestamps) the returned storage
    series has one entry per hour, under the timestamps of the generation
    series and in their order, and its entry for hour n is the storage level
    the loop holds after it has processed hours 0 to n. *)
Theorem storage_profile_hourly (self : EnergySystemCalculator) (gen : Series)
    (p cap : R) (cyc : Z) :
  aligned (consumption_profile self) gen ->
  exists ratio profile,
    calculate_autoconsumption self gen p cap cyc = Ok (ratio, profile)
    /\ index profile = index gen
    /\ forall n t g,
         nth_error gen n = Some (t, g) ->
         exists st,
           dispatch_loop (adjusted_capacity_of cap) p (consumption_profile self)
             (firstn (S n) gen) dispatch_init = Ok st
           /\ nth_error profile n = Some (t, storage_level st).
Proof. apply calculate_autoconsumption_trace. Qed.

Lemma storage_profile_hourly_witness :
  aligned (consumption_profile flat_day) sunny
  /\ exists ratio profile,
       calculate_autoconsumption flat_day sunny 5 20 4000 = Ok (ratio, profile)
       /\ index profile = index sunny.
Proof.
  assert (H1 : aligned (consumption_profile flat_day) sunny)
    by apply flat_profile_aligned.
  split; [exact H1|].
  destruct (storage_profile_hourly flat_day sunny 5 20 4000 H1)
    as [ratio [profile [Hrun [Hidx _]]]].
  exists ratio, profile. split; assumption.
Defined.

(** ** The power rating *)




(** ** What the battery adds *)

Lemma battery_step_idle (adj p g d : R) :
  0 <= p -> 0 <= adj -> p = 0 \/ adj = 0 ->
  battery_step adj p 0 g d = (0, Rmin g d).
Proof.
  intros Hp Hadj [H|H]; subst; unfold battery_step; crunch_minmax; f_equal; lra.
Qed.

Lemma battery_step_direct_ge (adj p level g d : R) :
  0 <= p -> 0 <= level ->
  Rmin g d <= snd (battery_step adj p level g d).
Proof. intros Hp Hl. unfold battery_step. crunch_minmax. Qed.

Lemma battery_step_covered (adj p level g d : R) :
  0 <= p -> 0 <= level -> d <= g ->
  snd (battery_step adj p level g d) = d.
Proof. intros Hp Hl Hd. unfold battery_step. crunch_minmax. Qed.


Lemma run_steps_idle (adj p : R) :
  0 <= p -> 0 <= adj -> p = 0 \/ adj = 0 ->
  forall steps st,
    storage_level st = 0 ->
    levels_ok 0 (storage_levels st) ->
    storage_level (run_steps adj p steps st) = 0
    /\ autokonsumed (run_steps adj p steps st)
       = autokonsumed st
         + sum (map (fun s => Rmin (step_gen s) (step_demand s)) steps)
    /\ levels_ok 0 (storage_levels (run_steps adj p steps st)).
Proof.
  intros Hp Hadj Hor. induction steps as [|s steps IH]; intros st Hl Hls.
  - simpl. repeat split; try assumption. lra.
  - rewrite run_steps_cons.
    assert (Hstep : battery_step adj p (storage_level st) (snd (fst s)) (snd s)
                    = (0, Rmin (snd (fst s)) (snd s)))
      by (rewrite Hl; now apply battery_step_idle).
    destruct (IH (dispatch_step adj p st (fst (fst s)) (snd (fst s)) (snd s)))
      as [H1 [H2 H3]].
    + now rewrite dispatch_step_level, Hstep.
    + rewrite dispatch_step_levels, dispatch_step_level, Hstep. simpl.
      apply Forall_app. split; [exact Hls|].
      constructor; [simpl; lra|constructor].
    + split; [exact H1|]. split; [|exact H3].
      rewrite H2, dispatch_step_autokonsumed, Hstep. simpl.
      unfold step_gen, step_demand. lra.
Qed.

Lemma run_steps_direct_le (adj p : R) :
  0 <= p ->
  forall steps st,
    level_ok adj st ->
    autokonsumed st + sum (map (fun s => Rmin (step_gen s) (step_demand s)) steps)
    <= autokonsumed (run_steps adj p steps st).
Proof.
  intros Hp. induction steps as [|s steps IH]; intros st Hst; [simpl; lra|].
  rewrite run_steps_cons. simpl map. simpl sum.
  eapply Rle_trans; [|apply IH].
  - rewrite dispatch_step_autokonsumed.
    pose proof (battery_step_direct_ge adj p (storage_level st)
                  (snd (fst s)) (snd s) Hp (proj1 Hst)).
    unfold step_gen, step_demand. lra.
  - unfold level_ok. rewrite dispatch_step_level. now apply battery_step_level.
Qed.

Lemma run_steps_covered (adj p : R) :
  0 <= p ->
  forall steps st,
    level_ok adj st ->
    Forall (fun s => step_demand s <= step_gen s) steps ->
    autokonsumed (run_steps adj p steps st)
    = autokonsumed st + sum (map step_demand steps).
Proof.
  intros Hp. induction steps as [|s steps IH]; intros st Hst Hcov; [simpl; lra|].
  inversion Hcov as [|? ? Hs Hcov']; subst.
  rewrite run_steps_cons, IH; [|
    unfold level_ok; rewrite dispatch_step_level; now apply battery_step_level
    | assumption].
  rewrite dispatch_step_autokonsumed.
  rewrite battery_step_covered; [|assumption|apply Hst|exact Hs].
  simpl. unfold step_demand. lra.
Qed.

Lemma levels_zero (l : Series) :
  levels_ok 0 l -> Forall (fun e => snd e = 0) l.
Proof.
  unfold levels_ok. apply Forall_impl. intros e H. lra.
Qed.

Lemma calculate_autoconsumption_no_storage (self : EnergySystemCalculator) (gen : Series)
    (p cap : R) (cyc : Z) :
  aligned (consumption_profile self) gen ->
  0 <= p -> 0 <= cap -> p = 0 \/ cap = 0 ->
  exists profile,
    calculate_autoconsumption self gen p cap cyc
    = Ok (np_divide (direct_use_total gen (values (consumption_profile self)))
                    (sum (values (consumption_profile self))),
          profile)
    /\ Forall (fun e => snd e = 0) profile.
Proof.
  intros Hal Hp Hcap Hor.
  rewrite (calculate_autoconsumption_aligned self gen p cap cyc Hal). cbv zeta.
  destruct (run_steps_idle (adjusted_capacity_of cap) p Hp
              (adjusted_capacity_nonneg cap Hcap)
              ltac:(destruct Hor as [H|H];
                    [now left|right; subst; unfold adjusted_capacity_of; lra])
              (combine gen (values (consumption_profile self))) dispatch_init
              eq_refl ltac:(constructor))
    as [_ [Hauto Hls]].
  eexists. split.
  - rewrite Hauto. simpl autokonsumed. rewrite Rplus_0_l. reflexivity.
  - apply levels_zero. now apply dict_levels.
Qed.

(** X5: without a battery (storage_power_kw = 0 or storage_capacity_kwh = 0,
    the other one not negative) the storage level is 0 in every hour and the
    ratio is the energy used directly, the sum of min(pv_gen, demand) over
    the hours, over the total consumption. *)
Theorem no_storage_direct_use (self : EnergySystemCalculator) (gen : Series)
    (p cap : R) (cyc : Z) :
  aligned (consumption_profile self) gen ->
  0 <= p -> 0 <= cap -> p = 0 \/ cap = 0 ->
  exists profile,
    calculate_autoconsumption self gen p cap cyc
    = Ok (np_divide (direct_use_total gen (values (consumption_profile self)))
                    (sum (values (consumption_profile self))),
          profile)
    /\ Forall (fun e => snd e = 0) profile.
Proof. apply calculate_autoconsumption_no_storage. Qed.

Lemma no_storage_direct_use_witness :
  aligned (consumption_profile flat_day) sunny
  /\ 0 <= 0 /\ 0 <= 20 /\ (0 = 0 \/ 20 = 0)
  /\ exists profile,
       calculate_autoconsumption flat_day sunny 0 20 4000
       = Ok (np_divide (direct_use_total sunny (values (consumption_profile flat_day)))
                       (sum (values (consumption_profile flat_day))),
             profile)
       /\ Forall (fun e => snd e = 0) profile.
Proof.
  assert (H1 : aligned (consumption_profile flat_day) sunny)
    by apply flat_profile_aligned.
  assert (H2 : 0 <= 0) by lra.
  assert (H3 : 0 <= 20) by lra.
  assert (H4 : 0 = 0 \/ 20 = 0) by now left.
  repeat (split; [assumption|]).
  exact (no_storage_direct_use flat_day sunny 0 20 4000 H1 H2 H3 H4).
Defined.

(** X6: storage never lowers the ratio.  On series indexed alike with a
    positive total consumption, the ratio with any storage_power_kw >= 0 and
    storage_capacity_kwh >= 0 is at least the ratio of the same series
    without a battery. *)
Theorem storage_never_lowers_ratio (self : EnergySystemCalculator) (gen : Series)
    (p cap : R) (cyc : Z) :
  aligned (consumption_profile self) gen ->
  0 <= p -> 0 <= cap ->
  0 < sum (values (consumption_profile self)) ->
  exists r profile r0 profile0,
    calculate_autoconsumption self gen p cap cyc = Ok (Finite r, profile)
    /\ calculate_autoconsumption self gen 0 0 cyc = Ok (Finite r0, profile0)
    /\ r0 <= r.
Proof.
  intros Hal Hp Hcap Htot.
  destruct (calculate_autoconsumption_no_storage self gen 0 0 cyc Hal
              (Rle_refl 0) (Rle_refl 0) (or_introl eq_refl)) as [profile0 [H0 _]].
  rewrite H0.
  rewrite (calculate_autoconsumption_aligned self gen p cap cyc Hal). cbv zeta.
  rewrite !np_divide_finite by lra.
  eexists; eexists; eexists; eexists. split; [reflexivity|]. split; [reflexivity|].
  pose proof (run_steps_direct_le (adjusted_capacity_of cap) p Hp
                (combine gen (values (consumption_profile self))) dispatch_init
                (dispatch_init_ok _ (adjusted_capacity_nonneg cap Hcap))) as H.
  simpl autokonsumed in H. rewrite Rplus_0_l in H.
  unfold direct_use_total, Rdiv.
  apply Rmult_le_compat_r; [|exact H].
  left. apply Rinv_0_lt_compat. exact Htot.
Qed.

Lemma flat_day_total : sum (values (consumption_profile flat_day)) = 24.
Proof.
  change (consumption_profile flat_day) with (flat_profile 24 1).
  rewrite flat_profile_values, sum_repeat. simpl. lra.
Qed.

Lemma storage_never_lowers_ratio_witness :
  aligned (consumption_profile flat_day) sunny
  /\ 0 <= 5 /\ 0 <= 20
  /\ 0 < sum (values (consumption_profile flat_day))
  /\ exists r profile r0 profile0,
       calculate_autoconsumption flat_day sunny 5 20 4000 = Ok (Finite r, profile)
       /\ calculate_autoconsumption flat_day sunny 0 0 4000 = Ok (Finite r0, profile0)
       /\ r0 <= r.
Proof.
  assert (H1 : aligned (consumption_profile flat_day) sunny)
    by apply flat_profile_aligned.
  assert (H2 : 0 <= 5) by lra.
  assert (H3 : 0 <= 20) by lra.
  assert (H4 : 0 < sum (values (consumption_profile flat_day)))
    by (rewrite flat_day_total; lra).
  repeat (split; [assumption|]).
  exact (storage_never_lowers_ratio flat_day sunny 5 20 4000 H1 H2 H3 H4).
Defined.

(** ** Full cover and no sun *)

Lemma combine_aligned_In (c : Series) :
  forall (items cs : Series) t g d,
    index items = index cs ->
    In ((t, g), d) (combine items (values cs)) ->
    In (t, g) items /\ In (t, d) cs.
Proof.
  induction items as [|[t0 g0] items IH]; intros [|[t1 d1] cs] t g d Hidx Hin;
    simpl in *; try contradiction.
  inversion Hidx; subst.
  destruct Hin as [Heq|Hin].
  - inversion Heq; subst. split; now left.
  - destruct (IH cs t g d H1 Hin). split; now right.
Qed.

Lemma covered_steps (c gen : Series) :
  aligned c gen ->
  (forall t g d, In (t, g) gen -> loc c t = Ok d -> d <= g) ->
  Forall (fun s => step_demand s <= step_gen s) (combine gen (values c)).
Proof.
  intros [Hidx Hnd] Hcov. apply Forall_forall. intros [[t g] d] Hin.
  destruct (combine_aligned_In c gen c t g d Hidx Hin) as [Hg Hc].
  unfold step_demand, step_gen. simpl.
  apply (Hcov t g d Hg). now apply loc_unique.
Qed.

(** X7: on series indexed alike, with storage_power_kw >= 0,
    storage_capacity_kwh >= 0 and a positive total consumption, generation
    that is at least the demand in every hour gives the ratio 1. *)
Theorem full_cover_ratio_one (self : EnergySystemCalculator) (gen : Series)
    (p cap : R) (cyc : Z) :
  aligned (consumption_profile self) gen ->
  0 <= p -> 0 <= cap ->
  0 < sum (values (consumption_profile self)) ->
  (forall t g d,
      In (t, g) gen -> loc (consumption_profile self) t = Ok d -> d <= g) ->
  exists profile,
    calculate_autoconsumption self gen p cap cyc = Ok (Finite 1, profile).
Proof.
  intros Hal Hp Hcap Htot Hcov.
  rewrite (calculate_autoconsumption_aligned self gen p cap cyc Hal). cbv zeta.
  rewrite (run_steps_covered (adjusted_capacity_of cap) p Hp _ dispatch_init
             (dispatch_init_ok _ (adjusted_capacity_nonneg cap Hcap))
             (covered_steps _ _ Hal Hcov)).
  rewrite combine_demands by now apply aligned_length.
  simpl autokonsumed. rewrite Rplus_0_l.
  rewrite np_divide_finite by lra.
  eexists. do 3 f_equal. apply Rinv_r. lra.
Qed.

Lemma flat_profile_In (n : nat) (c : R) (t : timestamp) (v : R) :
  In (t, v) (flat_profile n c) -> v = c.
Proof.
  unfold flat_profile. intros H. apply in_map_iff in H.
  destruct H as [i [Hi _]]. now inversion Hi.
Qed.

Lemma full_cover_ratio_one_witness :
  aligned (consumption_profile flat_day) sunny
  /\ 0 <= 5 /\ 0 <= 20
  /\ 0 < sum (values (consumption_profile flat_day))
  /\ (forall t g d,
        In (t, g) sunny -> loc (consumption_profile flat_day) t = Ok d -> d <= g)
  /\ exists profile,
       calculate_autoconsumption flat_day sunny 5 20 4000 = Ok (Finite 1, profile).
Proof.
  assert (H1 : aligned (consumption_profile flat_day) sunny)
    by apply flat_profile_aligned.
  assert (H2 : 0 <= 5) by lra.
  assert (H3 : 0 <= 20) by lra.
  assert (H4 : 0 < sum (values (consumption_profile flat_day)))
    by (rewrite flat_day_total; lra).
  assert (H5 : forall t g d,
             In (t, g) sunny -> loc (consumption_profile flat_day) t = Ok d -> d <= g).
  { intros t g d Hg Hd. apply flat_profile_In in Hg. subst g.
    change (consumption_profile flat_day) with (flat_profile 24 1) in *.
    assert (Hin : In t (index (flat_profile 24 1))).
    { destruct (in_dec Z.eq_dec t (index (flat_profile 24 1)))
        as [Hin|Hout]; [exact Hin|].
      rewrite (loc_absent _ _ Hout) in Hd. discriminate. }
    destruct (index_In _ _ Hin) as [d' Hd'].
    rewrite (loc_unique _ _ _ (flat_profile_NoDup 24 1) Hd') in Hd.
    inversion Hd; subst d'. apply flat_profile_In in Hd'. lra. }
  repeat (split; [assumption|]).
  exact (full_cover_ratio_one flat_day sunny 5 20 4000 H1 H2 H3 H4 H5).
Defined.




Lemma flat_day_well_formed : well_formed flat_day.
Proof.
  split; [exact flat_day_whole|]. split; [|split].
  - apply flat_profile_NoDup.
  - apply flat_profile_nonneg. lra.
  - discriminate.
Qed.


(** X9: over real numbers, the ratio cannot exceed what was generated.  On
    series indexed alike, with storage_power_kw >= 0, storage_capacity_kwh
    >= 0 and a positive total consumption, the returned ratio is at most the
    total generation over the total consumption. *)
Theorem ratio_at_most_generation_share (self : EnergySystemCalculator)
    (gen : Series) (p cap : R) (cyc : Z) :
  aligned (consumption_profile self) gen ->
  0 <= p -> 0 <= cap ->
  0 < sum (values (consumption_profile self)) ->
  exists r profile,
    calculate_autoconsumption self gen p cap cyc = Ok (Finite r, profile)
    /\ r <= sum (values gen) / sum (values (consumption_profile self)).
Proof.
  intros Hal Hp Hcap Htot.
  rewrite (calculate_autoconsumption_aligned self gen p cap cyc Hal). cbv zeta.
  rewrite np_divide_finite by lra.
  eexists; eexists. split; [reflexivity|].
  set (steps := combine gen (values (consumption_profile self))).
  pose proof (run_steps_energy (adjusted_capacity_of cap) p steps dispatch_init) as He.
  pose proof (run_steps_level (adjusted_capacity_of cap) p Hp steps dispatch_init
                (dispatch_init_ok _ (adjusted_capacity_nonneg cap Hcap))) as [Hl _].
  unfold steps in He at 3. rewrite combine_gens in He by now apply aligned_length.
  simpl in He. unfold Rdiv. apply Rmult_le_compat_r; [|lra].
  left. now apply Rinv_0_lt_compat.
Qed.

Lemma ratio_at_most_generation_share_witness :
  aligned (consumption_profile flat_day) sunny
  /\ 0 <= 5 /\ 0 <= 20
  /\ 0 < sum (values (consumption_profile flat_day))
  /\ exists r profile,
       calculate_autoconsumption flat_day sunny 5 20 4000 = Ok (Finite r, profile)
       /\ r <= sum (values sunny) / sum (values (consumption_profile flat_day)).
Proof.
  assert (H1 : aligned (consumption_profile flat_day) sunny)
    by apply flat_profile_aligned.
  assert (H2 : 0 <= 5) by lra.
  assert (H3 : 0 <= 20) by lra.
  assert (H4 : 0 < sum (values (consumption_profile flat_day)))
    by (rewrite flat_day_total; lra).
  repeat (split; [assumption|]).
  exact (ratio_at_most_generation_share flat_day sunny 5 20 4000 H1 H2 H3 H4).
Defined.

(** ** A change of unit *)

Lemma Rmin_scale (c a b : R) : 0 < c -> Rmin (c * a) (c * b) = c * Rmin a b.
Proof.
  intros Hc. unfold Rmin.
  destruct (Rle_dec (c * a) (c * b)); destruct (Rle_dec a b);
    try reflexivity; exfalso; nra.
Qed.

Lemma Rmax_scale (c a b : R) : 0 < c -> Rmax (c * a) (c * b) = c * Rmax a b.
Proof.
  intros Hc. unfold Rmax.
  destruct (Rle_dec (c * a) (c * b)); destruct (Rle_dec a b);
    try reflexivity; exfalso; nra.
Qed.

Lemma battery_step_scale (c adj p level g d : R) :
  0 < c ->
  battery_step (c * adj) (c * p) (c * level) (c * g) (c * d)
  = (c * fst (battery_step adj p level g d),
     c * snd (battery_step adj p level g d)).
Proof.
  intros Hc. unfold battery_step.
  assert (E1 : Rmax (c * g - c * d) 0 = c * Rmax (g - d) 0).
  { rewrite <- Rmax_scale by assumption. f_equal; lra. }
  assert (E2 : Rmin (c * g) (c * d) = c * Rmin g d) by now apply Rmin_scale.
  assert (E3 : Rmin (c * adj - c * level) (Rmin (c * p) (c * Rmax (g - d) 0))
               = c * Rmin (adj - level) (Rmin p (Rmax (g - d) 0))).
  { replace (c * adj - c * level) with (c * (adj - level)) by lra.
    now rewrite !Rmin_scale by assumption. }
  assert (E4 : Rmin (c * level) (Rmin (c * p) (c * d - c * Rmin g d))
               = c * Rmin level (Rmin p (d - Rmin g d))).
  { replace (c * d - c * Rmin g d) with (c * (d - Rmin g d)) by lra.
    now rewrite !Rmin_scale by assumption. }
  rewrite E1, E2, E3, E4.
  destruct (Rlt_dec 0 (c * Rmax (g - d) 0)) as [H|H];
    destruct (Rlt_dec 0 (Rmax (g - d) 0)) as [H'|H']; simpl.
  - f_equal; lra.
  - exfalso. apply H'. nra.
  - exfalso. apply H. nra.
  - f_equal; lra.
Qed.

Lemma dispatch_step_scale (c adj p : R) (st : dispatch_state) (t : timestamp) (g d : R) :
  0 < c ->
  dispatch_step (c * adj) (c * p) (scale_state c st) t (c * g) (c * d)
  = scale_state c (dispatch_step adj p st t g d).
Proof.
  intros Hc. unfold dispatch_step. simpl storage_level.
  rewrite battery_step_scale by assumption.
  destruct (battery_step adj p (storage_level st) g d) as [l u].
  unfold scale_state, scale. simpl. rewrite map_app. simpl.
  f_equal. lra.
Qed.

Lemma filter_scale (c : R) (s : Series) (t : timestamp) :
  filter (fun e => Z.eqb (fst e) t) (scale c s)
  = scale c (filter (fun e => Z.eqb (fst e) t) s).
Proof.
  unfold scale. induction s as [|[k v] s IH]; simpl; [reflexivity|].
  destruct (Z.eqb k t); simpl; now rewrite IH.
Qed.

Lemma loc_scale (c : R) (s : Series) (t : timestamp) :
  loc (scale c s) t
  = match loc s t with
    | Ok d => Ok (c * d)
    | Raise e => Raise e
    end.
Proof.
  unfold loc. rewrite filter_scale.
  destruct (filter (fun e => Z.eqb (fst e) t) s) as [|e [|e' l]]; reflexivity.
Qed.

Lemma dispatch_loop_scale (c adj p : R) (cons : Series) :
  0 < c ->
  forall items st,
    dispatch_loop (c * adj) (c * p) (scale c cons) (scale c items) (scale_state c st)
    = match dispatch_loop adj p cons items st with
      | Ok st' => Ok (scale_state c st')
      | Raise e => Raise e
      end.
Proof.
  intros Hc. induction items as [|[t g] items IH]; intros st; simpl; [reflexivity|].
  rewrite loc_scale. destruct (loc cons t) as [d|e]; [|reflexivity].
  rewrite dispatch_step_scale by assumption. apply IH.
Qed.

Lemma sum_scale (c : R) (s : Series) :
  sum (values (scale c s)) = c * sum (values s).
Proof.
  unfold values, scale. induction s as [|[k v] s IH]; simpl; [lra|].
  rewrite IH. lra.
Qed.

Lemma dict_set_scale (c : R) (d : Series) (k : timestamp) (v : R) :
  dict_set (scale c d) k (c * v) = scale c (dict_set d k v).
Proof.
  unfold scale. induction d as [|[k' v'] d IH]; simpl; [reflexivity|].
  destruct (Z.eqb k' k); simpl; [reflexivity|]. now rewrite IH.
Qed.

Lemma dict_scale (c : R) (l : Series) : dict (scale c l) = scale c (dict l).
Proof.
  unfold dict. change (@nil (timestamp * R)) with (scale c []) at 1.
  generalize (@nil (timestamp * R)) as acc.
  induction l as [|[k v] l IH]; intros acc; simpl; [reflexivity|].
  rewrite dict_set_scale. apply IH.
Qed.

Lemma np_divide_scale (c a b : R) :
  0 < c -> np_divide (c * a) (c * b) = np_divide a b.
Proof.
  intros Hc. unfold np_divide.
  destruct (Req_EM_T (c * b) 0) as [Hb|Hb]; destruct (Req_EM_T b 0) as [Hb'|Hb'];
    try (exfalso; nra).
  - destruct (Req_EM_T (c * a) 0) as [Ha|Ha]; destruct (Req_EM_T a 0) as [Ha'|Ha'];
      try (exfalso; nra); [reflexivity|].
    destruct (Rlt_dec 0 (c * a)); destruct (Rlt_dec 0 a);
      try reflexivity; exfalso; nra.
  - f_equal. field. split; lra.
Qed.

(** X10: a change of unit changes nothing.  Multiplying every generation
    and consumption value, storage_power_kw and storage_capacity_kwh by the
    same c > 0 leaves the outcome of the dispatch simulator as it was: the
    same error, or the same ratio with every storage level multiplied by
    c. *)
Theorem dispatch_unit_change (self : EnergySystemCalculator) (gen : Series)
    (p cap : R) (cyc : Z) (c : R) :
  0 < c ->
  calculate_autoconsumption (init (scale c (consumption_profile self)))
    (scale c gen) (c * p) (c * cap) cyc
  = match calculate_autoconsumption self gen p cap cyc with
    | Ok (ratio, profile) => Ok (ratio, scale c profile)
    | Raise e => Raise e
    end.
Proof.
  intros Hc. unfold calculate_autoconsumption. simpl consumption_profile.
  replace (adjusted_capacity_of (c * cap)) with (c * adjusted_capacity_of cap)
    by (unfold adjusted_capacity_of; lra).
  assert (Hinit : scale_state c dispatch_init = dispatch_init)
    by (unfold scale_state, dispatch_init; simpl; f_equal; lra).
  rewrite <- Hinit at 1.
  rewrite dispatch_loop_scale by assumption.
  destruct (dispatch_loop (adjusted_capacity_of cap) p (consumption_profile self)
              gen dispatch_init) as [st|e]; [|reflexivity].
  simpl. now rewrite sum_scale, np_divide_scale, dict_scale.
Qed.

Lemma dispatch_unit_change_witness :
  0 < 1000
  /\ calculate_autoconsumption (init (scale 1000 (consumption_profile flat_day)))
       (scale 1000 sunny) (1000 * 5) (1000 * 20) 4000
     = match calculate_autoconsumption flat_day sunny 5 20 4000 with
       | Ok (ratio, profile) => Ok (ratio, scale 1000 profile)
       | Raise e => Raise e
       end.
Proof.
  assert (H : 0 < 1000) by lra.
  split; [exact H|].
  exact (dispatch_unit_change flat_day sunny 5 20 4000 1000 H).
Defined.

(** ** More on the generation model *)


Lemma long_day_partial : (length (consumption_profile long_day) mod 24 <> 0)%nat.
Proof.
  change (consumption_profile long_day) with (flat_profile 25 1).
  rewrite flat_profile_length. discriminate.
Qed.











(** ** More on the sizing search *)

Lemma attempt_well_formed (self : EnergySystemCalculator) (k : nat) :
  well_formed self ->
  exists g a s,
    attempt self k = Ok (g, (a, s))
    /\ index g = index (consumption_profile self)
    /\ index s = index (consumption_profile self)
    /\ (0 < sum (values (consumption_profile self)) ->
        exists r, a = Finite r /\ 0 <= r <= 1)
    /\ (sum (values (consumption_profile self)) = 0 -> a = NaN).
Proof.
  intros [Hlen [Hnd [Hc Hne]]].
  destruct (candidate_nonneg k) as [Hpv [Hp Hcap]].
  destruct (simulate_pv_generation_spec self (candidate_pv k) 1 (mkWorld 42) ltac:(lia) Hlen)
    as [g [Hg [Hi [_ Hnn]]]].
  specialize (Hnn Hpv).
  assert (Hal : aligned (consumption_profile self) g) by (split; assumption).
  destruct (calculate_autoconsumption_trace self g (candidate_power k)
              (candidate_capacity k) 4000 Hal) as [a [s [Hrun [Hidx _]]]].
  exists g, a, s. unfold attempt. rewrite Hg, Hrun.
  split; [reflexivity|]. split; [exact Hi|]. split; [now rewrite Hidx|].
  rewrite (calculate_autoconsumption_aligned self g _ _ 4000 Hal) in Hrun.
  cbv zeta in Hrun. inversion Hrun as [[Ha Hs]]. clear Hrun Hs.
  pose proof (autokonsumed_bounds self g _ _ Hal Hnn Hc Hp Hcap) as Hb.
  split.
  - intros Htot. rewrite np_divide_finite by lra.
    eexists. split; [reflexivity|]. now apply quotient_unit.
  - intros Hz. rewrite Hz in *.
    replace (autokonsumed _) with 0 by lra. apply np_divide_nan.
Qed.

Lemma optimize_loop_sound (self : EnergySystemCalculator) (target : R) :
  forall fuel k w r w',
    optimize_loop fuel self target
      (candidate_pv k) (candidate_power k) (candidate_capacity k) w
    = Some (Ok r, w') ->
    exists j,
      (k <= j < k + fuel)%nat
      /\ pv_size_kw r = candidate_pv j
      /\ storage_power_kw r = candidate_power j
      /\ storage_capacity_kwh r = candidate_capacity j
      /\ attempt self j = Ok (pv_generation r, (autoconsumption r, storage_profile r))
      /\ np_ge (autoconsumption r) target = true
      /\ forall i, (k <= i < j)%nat -> below_target self target i.
Proof.
  induction fuel as [|fuel IH]; intros k w r w' H; [discriminate|].
  rewrite optimize_loop_pass in H.
  destruct (attempt self k) as [[gen [a prof]]|e] eqn:Hatt; [|discriminate].
  destruct (np_ge a target) eqn:Hge.
  - inversion H; subst. exists k. simpl.
    repeat split; try reflexivity; try assumption; try lia.
  - destruct (IH (S k) _ r w' H) as [j [Hj [H1 [H2 [H3 [H4 [H5 H6]]]]]]].
    exists j. repeat split; try assumption; try lia.
    intros i Hi. destruct (Nat.eq_dec i k) as [->|Hne].
    + exists gen, a, prof. split; assumption.
    + apply H6. lia.
Qed.

(** X16: what the search returns is what it found first.  Whenever
    [optimize_system] returns a configuration, that configuration is a
    candidate (10 + 2k, 5 + k, 20 + 5k) reached within the passes made, its
    generation series, ratio and storage series are those of that candidate,
    its ratio is >= the target, and every earlier candidate ran below the
    target; so the PV size returned is twice the storage power and the
    capacity is five times the storage power less 5. *)
Theorem optimize_system_returns_first (self : EnergySystemCalculator)
    (target : R) (fuel : nat) (w w' : world) (r : sizing) :
  optimize_system fuel self target w = Some (Ok r, w') ->
  exists k,
    (k < fuel)%nat
    /\ pv_size_kw r = candidate_pv k
    /\ storage_power_kw r = candidate_power k
    /\ storage_capacity_kwh r = candidate_capacity k
    /\ attempt self k = Ok (pv_generation r, (autoconsumption r, storage_profile r))
    /\ np_ge (autoconsumption r) target = true
    /\ (forall i, (i < k)%nat -> below_target self target i)
    /\ pv_size_kw r = 2 * storage_power_kw r
    /\ storage_capacity_kwh r = 5 * storage_power_kw r - 5.
Proof.
  intros H. rewrite optimize_system_candidates in H.
  destruct (optimize_loop_sound self target fuel 0%nat w r w' H)
    as [k [Hk [H1 [H2 [H3 [H4 [H5 H6]]]]]]].
  exists k. repeat split; try assumption; try lia.
  - intros i Hi. apply H6. lia.
  - rewrite H1, H2. unfold candidate_pv, candidate_power. lra.
  - rewrite H3, H2. unfold candidate_capacity, candidate_power. lra.
Qed.

Lemma optimize_first_pass (self : EnergySystemCalculator) (target : R)
    (fuel : nat) (w : world) :
  well_formed self ->
  0 < sum (values (consumption_profile self)) ->
  target <= 0 ->
  exists gen autocons profile,
    optimize_system (S fuel) self target w
    = Some (Ok {| pv_size_kw := 10;
                  storage_power_kw := 5;
                  storage_capacity_kwh := 20;
                  autoconsumption := autocons;
                  pv_generation := gen;
                  storage_profile := profile |}, mkWorld 42)
    /\ attempt self 0 = Ok (gen, (autocons, profile)).
Proof.
  intros Hwf Htot Ht.
  destruct (attempt_well_formed self 0 Hwf) as [g [a [s [Hatt [_ [_ [Hr _]]]]]]].
  destruct (Hr Htot) as [r [Ha Hb]]. subst a.
  exists g, (Finite r), s. split; [|exact Hatt].
  rewrite optimize_system_candidates, optimize_loop_pass, Hatt.
  rewrite np_ge_reached by lra.
  destruct candidate_start as [-> [-> ->]]. reflexivity.
Qed.

Lemma optimize_system_returns_first_witness :
  exists r w',
    optimize_system 1 flat_day 0 w0 = Some (Ok r, w')
    /\ pv_size_kw r = 2 * storage_power_kw r
    /\ storage_capacity_kwh r = 5 * storage_power_kw r - 5.
Proof.
  destruct (optimize_first_pass flat_day 0 0 w0 flat_day_well_formed
              ltac:(rewrite flat_day_total; lra) (Rle_refl 0))
    as [gen [a [prof [Hrun _]]]].
  eexists; eexists. split; [exact Hrun|].
  destruct (optimize_system_returns_first flat_day 0 1 w0 _ _ Hrun)
    as [k [_ [_ [_ [_ [_ [_ [_ [Ha Hb]]]]]]]]].
  split; assumption.
Defined.

(** X17: a target of zero or less stops the search at once.  On a non-empty
    profile of whole days with unique timestamps, no negative consumption and a positive
    total, [optimize_system] returns the starting configuration (10 kW PV,
    5 kW and 20 kWh of storage) from its first pass. *)
Theorem optimize_system_trivial_target (self : EnergySystemCalculator)
    (target : R) (fuel : nat) (w : world) :
  well_formed self ->
  0 < sum (values (consumption_profile self)) ->
  target <= 0 ->
  exists gen autocons profile,
    optimize_system (S fuel) self target w
    = Some (Ok {| pv_size_kw := 10;
                  storage_power_kw := 5;
                  storage_capacity_kwh := 20;
                  autoconsumption := autocons;
                  pv_generation := gen;
                  storage_profile := profile |}, mkWorld 42)
    /\ attempt self 0 = Ok (gen, (autocons, profile)).
Proof. apply optimize_first_pass. Qed.

Lemma optimize_system_trivial_target_witness :
  well_formed flat_day
  /\ 0 < sum (values (consumption_profile flat_day))
  /\ 0 <= 0
  /\ exists gen autocons profile,
       optimize_system 3 flat_day 0 w0
       = Some (Ok {| pv_size_kw := 10;
                     storage_power_kw := 5;
                     storage_capacity_kwh := 20;
                     autoconsumption := autocons;
                     pv_generation := gen;
                     storage_profile := profile |}, mkWorld 42).
Proof.
  pose proof flat_day_well_formed as H1.
  assert (H2 : 0 < sum (values (consumption_profile flat_day)))
    by (rewrite flat_day_total; lra).
  assert (H3 : 0 <= 0) by lra.
  repeat (split; [assumption|]).
  destruct (optimize_system_trivial_target flat_day 0 2 w0 H1 H2 H3)
    as [gen [a [prof [Hrun _]]]].
  now exists gen, a, prof.
Defined.

(** X18: a profile the simulations cannot take stops the search with their
    error.  When the number of rows is not a multiple of 24, or it is but a
    timestamp occurs twice, the first pass of [optimize_system] raises
    ValueError, whatever the target. *)
Theorem optimize_system_raises (self : EnergySystemCalculator)
    (target : R) (fuel : nat) (w : world) :
  (length (consumption_profile self) mod 24 <> 0)%nat
  \/ ((length (consumption_profile self) mod 24 = 0)%nat
      /\ ~ NoDup (index (consumption_profile self))) ->
  optimize_system (S fuel) self target w = Some (Raise ValueError, mkWorld 42).
Proof.
  intros H. rewrite optimize_system_candidates, optimize_loop_pass.
  assert (Hatt : attempt self 0 = Raise ValueError).
  { unfold attempt. destruct H as [Hlen|[Hlen Hdup]].
    - now rewrite simulate_pv_generation_raises by (try lia; assumption).
    - destruct (simulate_pv_generation_spec self (candidate_pv 0) 1 (mkWorld 42) ltac:(lia) Hlen)
        as [g [Hg [Hi _]]].
      rewrite Hg. now rewrite calculate_autoconsumption_repeated. }
  now rewrite Hatt.
Qed.

Lemma optimize_system_raises_witness :
  ((length (consumption_profile long_day) mod 24 <> 0)%nat
   \/ ((length (consumption_profile long_day) mod 24 = 0)%nat
       /\ ~ NoDup (index (consumption_profile long_day))))
  /\ optimize_system 1 long_day (9 / 10) w0 = Some (Raise ValueError, mkWorld 42).
Proof.
  assert (H : (length (consumption_profile long_day) mod 24 <> 0)%nat
              \/ ((length (consumption_profile long_day) mod 24 = 0)%nat
                  /\ ~ NoDup (index (consumption_profile long_day))))
    by (left; exact long_day_partial).
  split; [exact H|].
  exact (optimize_system_raises long_day (9 / 10) 0 w0 H).
Defined.

Lemma below_target_above_one (self : EnergySystemCalculator) (target : R) (j : nat) :
  well_formed self -> 1 < target -> below_target self target j.
Proof.
  intros Hwf Ht.
  destruct (attempt_well_formed self j Hwf) as [g [a [s [Hatt [_ [_ [Hpos Hzero]]]]]]].
  exists g, a, s. split; [exact Hatt|].
  destruct Hwf as [_ [_ [Hc _]]]. pose proof (sum_nonneg _ Hc) as Hs.
  destruct (Req_dec (sum (values (consumption_profile self))) 0) as [Hz|Hnz].
  - now rewrite (Hzero Hz).
  - destruct Hpos as [r [-> Hr]]; [lra|]. apply np_ge_below. lra.
Qed.

(** X19: over real numbers, a target above 1 is never met.  On a non-empty
    profile of whole days with unique timestamps and no negative
    consumption, [optimize_system] with a target ratio > 1 returns after no
    number of passes. *)
Theorem optimize_system_target_above_one (self : EnergySystemCalculator)
    (target : R) (fuel : nat) (w : world) :
  well_formed self -> 1 < target ->
  optimize_system fuel self target w = None.
Proof.
  intros Hwf Ht. rewrite optimize_system_candidates.
  apply optimize_loop_exhausted. intros j _. now apply below_target_above_one.
Qed.

Lemma optimize_system_target_above_one_witness :
  well_formed flat_day /\ 1 < 2
  /\ optimize_system 500 flat_day 2 w0 = None.
Proof.
  pose proof flat_day_well_formed as H1.
  assert (H2 : 1 < 2) by lra.
  repeat (split; [assumption|]).
  exact (optimize_system_target_above_one flat_day 2 500 w0 H1 H2).
Defined.

(** X20: a profile that consumes nothing never ends the search.  On a
    non-empty profile of whole days with unique timestamps whose consumption is zero
    in total (no value negative), every pass yields nan, no comparison with
    nan holds, and [optimize_system] returns after no number of passes
    whatever the target, also a target of 0 or less. *)
Theorem optimize_system_zero_consumption (self : EnergySystemCalculator)
    (target : R) (fuel : nat) (w : world) :
  well_formed self ->
  sum (values (consumption_profile self)) = 0 ->
  optimize_system fuel self target w = None.
Proof.
  intros Hwf Hz. rewrite optimize_system_candidates.
  apply optimize_loop_exhausted. intros j _.
  destruct (attempt_well_formed self j Hwf) as [g [a [s [Hatt [_ [_ [_ Hzero]]]]]]].
  exists g, a, s. split; [exact Hatt|]. now rewrite (Hzero Hz).
Qed.

Lemma idle_day_well_formed : well_formed idle_day.
Proof.
  split; [|split; [|split]].
  - change (consumption_profile idle_day) with (flat_profile 24 0).
    now rewrite flat_profile_length.
  - apply flat_profile_NoDup.
  - apply flat_profile_nonneg. lra.
  - discriminate.
Qed.

Lemma optimize_system_zero_consumption_witness :
  well_formed idle_day
  /\ sum (values (consumption_profile idle_day)) = 0
  /\ optimize_system 500 idle_day 0 w0 = None.
Proof.
  pose proof idle_day_well_formed as H1.
  pose proof idle_day_total as H2.
  repeat (split; [assumption|]).
  exact (optimize_system_zero_consumption idle_day 0 500 w0 H1 H2).
Defined.

(** X21: over real numbers, the slider at 100 % asks for what the first hour
    rules out.  On a non-empty profile of whole days with unique timestamps
    and no negative consumption whose first row consumes something, every
    candidate stays below 1 (the first hour of a day has no generation and
    the battery starts empty), so [optimize_system] with the target
    100 / 100 returns after no number of passes. *)
Theorem optimize_system_full_target (self : EnergySystemCalculator)
    (t0 : timestamp) (d0 : R) (fuel : nat) (w : world) :
  well_formed self ->
  hd_error (consumption_profile self) = Some (t0, d0) ->
  0 < d0 ->
  optimize_system fuel self (desired_autoconsumption 100) w = None.
Proof.
  intros [Hlen [Hnd [Hc Hne]]] Hhd Hd0. rewrite optimize_system_candidates.
  apply optimize_loop_exhausted. intros j _.
  destruct (attempt_ratio self t0 d0 j Hlen Hnd Hc Hhd Hd0) as [g [r [s [Hatt Hr]]]].
  exists g, (Finite r), s. split; [exact Hatt|].
  apply np_ge_below. unfold desired_autoconsumption. lra.
Qed.

Lemma optimize_system_full_target_witness :
  well_formed flat_day
  /\ hd_error (consumption_profile flat_day) = Some (0%Z, 1)
  /\ 0 < 1
  /\ optimize_system 500 flat_day (desired_autoconsumption 100) w0 = None.
Proof.
  pose proof flat_day_well_formed as H1.
  assert (H2 : hd_error (consumption_profile flat_day) = Some (0%Z, 1))
    by reflexivity.
  assert (H3 : 0 < 1) by lra.
  repeat (split; [assumption|]).
  exact (optimize_system_full_target flat_day 0%Z 1 500 w0 H1 H2 H3).
Defined.

(** X22: what the search hands to the page, over real numbers.  On a
    non-empty profile of whole days with unique timestamps and no negative
    consumption, a configuration returned
    by [optimize_system] has a ratio that is a number between the target and
    1 (never nan), and its generation series and storage series carry the
    timestamps of the profile, one entry per row. *)
Theorem optimize_system_result_range (self : EnergySystemCalculator)
    (target : R) (fuel : nat) (w w' : world) (r : sizing) :
  well_formed self ->
  optimize_system fuel self target w = Some (Ok r, w') ->
  (exists x, autoconsumption r = Finite x /\ target <= x <= 1)
  /\ index (pv_generation r) = index (consumption_profile self)
  /\ index (storage_profile r) = index (consumption_profile self).
Proof.
  intros Hwf H. rewrite optimize_system_candidates in H.
  destruct (optimize_loop_sound self target fuel 0%nat w r w' H)
    as [k [_ [_ [_ [_ [Hatt [Hge _]]]]]]].
  destruct (attempt_well_formed self k Hwf)
    as [g [a [s [Hatt' [Hig [His [Hpos Hzero]]]]]]].
  rewrite Hatt in Hatt'. inversion Hatt' as [[Hg Ha Hs]].
  split; [|split; [now rewrite Hg | now rewrite Hs]].
  destruct Hwf as [_ [_ [Hc _]]]. pose proof (sum_nonneg _ Hc) as Hsum.
  destruct (Req_dec (sum (values (consumption_profile self))) 0) as [Hz|Hnz].
  - exfalso. rewrite Ha, (Hzero Hz) in Hge. discriminate.
  - destruct Hpos as [x [Hx Hr]]; [lra|]. exists x. rewrite Ha.
    split; [exact Hx|]. rewrite Ha, Hx in Hge. simpl in Hge.
    destruct (Rle_dec target x); [lra|discriminate].
Qed.

Lemma optimize_system_result_range_witness :
  well_formed flat_day
  /\ exists r w',
       optimize_system 1 flat_day 0 w0 = Some (Ok r, w')
       /\ exists x, autoconsumption r = Finite x /\ 0 <= x <= 1.
Proof.
  pose proof flat_day_well_formed as H1.
  split; [exact H1|].
  destruct (optimize_first_pass flat_day 0 0 w0 flat_day_well_formed
              ltac:(rewrite flat_day_total; lra) (Rle_refl 0))
    as [gen [a [prof [Hrun _]]]].
  eexists; eexists. split; [exact Hrun|].
  exact (proj1 (optimize_system_result_range flat_day 0 1 w0 _ _ H1 Hrun)).
Defined.
